(** * validation.py: the translation-payload normaliser

    A shallow embedding of [src/validation.py]:
    [_as_string], [_normalize_grammar_items], [_build_grammar_text] and
    [parse_and_validate_translation], together with the parts of the Python
    runtime they rely on ([str.strip], [str.find], [str.rfind], [json.loads]
    as implemented by CPython's C scanner, and the regular expressions of
    the recovery path).

    Python strings are sequences of code points: [pystr := list Z].
    A Python exception is [None] in the [option] results. *)

From Stdlib Require Import String Ascii ZArith List Bool Lia.
Set Warnings "-register-all".
Import ListNotations.
Open Scope Z_scope.

(** ** Python strings *)

Definition pystr := list Z.

(** An ASCII literal as a Python string. *)
Definition lit (s : string) : pystr :=
  map (fun c => Z.of_nat (nat_of_ascii c)) (list_ascii_of_string s).

(** An ASCII literal in which ['] stands for a double quote and [~] for a
    newline (Rocq strings cannot hold a double quote conveniently). *)
Definition jlit (s : string) : pystr :=
  map (fun c => if c =? 39 then 34 else if c =? 126 then 10 else c) (lit s).

Definition qt : Z := 34.       (* double quote *)
Definition bslash : Z := 92.   (* backslash *)
Definition lbrace : Z := 123.  (* {  *)
Definition rbrace : Z := 125.  (* }  *)
Definition lbrack : Z := 91.   (* [  *)
Definition rbrack : Z := 93.   (* ]  *)
Definition colon : Z := 58.    (* :  *)
Definition comma : Z := 44.    (* ,  *)
Definition backtick : Z := 96. (* `  *)
Definition newline : Z := 10.

Definition pystr_eqb (a b : pystr) : bool :=
  if list_eq_dec Z.eq_dec a b then true else false.

Definition nonempty (s : pystr) : bool :=
  match s with [] => false | _ => true end.

(** [str.isspace] / [Py_UNICODE_ISSPACE]: the characters stripped by
    [str.strip()] and matched by [\s] in a [str] regular expression. *)
Definition py_isspace (c : Z) : bool :=
  ((9 <=? c) && (c <=? 13)) || ((28 <=? c) && (c <=? 32))
  || (c =? 133) || (c =? 160) || (c =? 5760)
  || ((8192 <=? c) && (c <=? 8202))
  || (c =? 8232) || (c =? 8233) || (c =? 8239) || (c =? 8287)
  || (c =? 12288).

Fixpoint lstrip_by (p : Z -> bool) (s : pystr) : pystr :=
  match s with
  | c :: s' => if p c then lstrip_by p s' else s
  | [] => []
  end.

Definition strip_by (p : Z -> bool) (s : pystr) : pystr :=
  rev (lstrip_by p (rev (lstrip_by p s))).

(** [s.strip()] *)
Definition py_strip (s : pystr) : pystr := strip_by py_isspace s.

(** [s.startswith(p)] *)
Fixpoint is_prefix (p s : pystr) : bool :=
  match p, s with
  | [], _ => true
  | a :: p', b :: s' => (a =? b) && is_prefix p' s'
  | _ :: _, [] => false
  end.

(** [s.find(c)] for a one-character [c]; [None] is [-1]. *)
Fixpoint str_find (c : Z) (s : pystr) : option nat :=
  match s with
  | [] => None
  | x :: s' => if x =? c then Some 0%nat else option_map S (str_find c s')
  end.

(** [s.rfind(c)] for a one-character [c]; [None] is [-1]. *)
Fixpoint str_rfind (c : Z) (s : pystr) : option nat :=
  match s with
  | [] => None
  | x :: s' =>
      match str_rfind c s' with
      | Some i => Some (S i)
      | None => if x =? c then Some 0%nat else None
      end
  end.

(** [s[i:j]] for [0 <= i <= j]. *)
Definition slice (i j : nat) (s : pystr) : pystr := firstn (j - i) (skipn i s).

(** ["\n".join(xs)] *)
Fixpoint join (sep : pystr) (xs : list pystr) : pystr :=
  match xs with
  | [] => []
  | [x] => x
  | x :: xs' => x ++ sep ++ join sep xs'
  end.

(** ** Python values

    The values a payload is made of: JSON-like Python objects.  [PNum]
    carries the JSON number literal denoting a Python [int] or [float]
    (including [NaN], [Infinity], [-Infinity]); [PDict] is a [dict] with
    string keys, in insertion order and without duplicate keys. *)
Inductive pyval : Type :=
| PNone
| PBool (b : bool)
| PNum (lexeme : pystr)
| PStr (s : pystr)
| PList (xs : list pyval)
| PDict (kvs : list (pystr * pyval)).

(** [d.get(k)] *)
Fixpoint dict_get (kvs : list (pystr * pyval)) (k : pystr) : option pyval :=
  match kvs with
  | [] => None
  | (k', v) :: r => if pystr_eqb k k' then Some v else dict_get r k
  end.

(** [d[k] = v]: an existing key keeps its position and takes the new value. *)
Fixpoint dict_set (k : pystr) (v : pyval) (kvs : list (pystr * pyval))
  : list (pystr * pyval) :=
  match kvs with
  | [] => [(k, v)]
  | (k', v') :: r =>
      if pystr_eqb k k' then (k', v) :: r else (k', v') :: dict_set k v r
  end.

(** [d.get(k, default)] *)
Definition dict_get_or (kvs : list (pystr * pyval)) (k : pystr) (dflt : pyval)
  : pyval :=
  match dict_get kvs k with Some v => v | None => dflt end.

(** ** [json.loads] (CPython's [_json] C scanner, [strict=True])

    [None] is a [JSONDecodeError].  The scanner is written with fuel; every
    two nested calls consume at least one character, so the fuel
    [2 * len(s) + 2] given by [json_loads] never runs out before the input
    does.  (Python's recursion limit on very deep nesting and its limit on the
    number of digits of an [int] are not modelled.) *)
Module Json.

Definition is_ws (c : Z) : bool :=
  (c =? 32) || (c =? 9) || (c =? 10) || (c =? 13).

Fixpoint skip_ws (s : pystr) : pystr :=
  match s with
  | c :: s' => if is_ws c then skip_ws s' else s
  | [] => []
  end.

Definition is_digit (c : Z) : bool := (48 <=? c) && (c <=? 57).

Fixpoint span_digits (s : pystr) : pystr * pystr :=
  match s with
  | c :: s' =>
      if is_digit c then let (d, r) := span_digits s' in (c :: d, r)
      else ([], s)
  | [] => ([], [])
  end.

(** A number: an optional minus sign, then [0] or a non-zero digit and more
    digits, then optionally a dot and one or more digits, then optionally
    [e] or [E], an optional sign and one or more digits; the fraction and
    the exponent are left out when incomplete, as the C scanner does. *)
Definition scan_number (s : pystr) : option (pystr * pystr) :=
  let (sg, s1) :=
    match s with
    | c :: s' => if c =? 45 then ([c], s') else ([], s)
    | [] => ([], [])
    end in
  let ip :=
    match s1 with
    | c :: s' =>
        if (49 <=? c) && (c <=? 57) then
          let (d, r) := span_digits s' in Some (c :: d, r)
        else if c =? 48 then Some ([c], s')
        else None
    | [] => None
    end in
  match ip with
  | None => None
  | Some (i, r1) =>
      let (f, r2) :=
        match r1 with
        | d :: c :: r1' =>
            if (d =? 46) && is_digit c then
              let (ds, r) := span_digits r1' in (d :: c :: ds, r)
            else ([], r1)
        | _ => ([], r1)
        end in
      let (e, r3) :=
        match r2 with
        | c :: r2' =>
            if (c =? 101) || (c =? 69) then
              let (es, r4) :=
                match r2' with
                | x :: r5 => if (x =? 43) || (x =? 45) then ([x], r5) else ([], r2')
                | [] => ([], [])
                end in
              match span_digits r4 with
              | ([], _) => ([], r2)
              | (ds, r6) => (c :: es ++ ds, r6)
              end
            else ([], r2)
        | [] => ([], r2)
        end in
      Some (sg ++ i ++ f ++ e, r3)
  end.

Definition hex_val (c : Z) : option Z :=
  if (48 <=? c) && (c <=? 57) then Some (c - 48)
  else if (97 <=? c) && (c <=? 102) then Some (c - 87)
  else if (65 <=? c) && (c <=? 70) then Some (c - 55)
  else None.

Definition read_hex4 (s : pystr) : option (Z * pystr) :=
  match s with
  | a :: b :: c :: d :: r =>
      match hex_val a, hex_val b, hex_val c, hex_val d with
      | Some a', Some b', Some c', Some d' =>
          Some (((a' * 16 + b') * 16 + c') * 16 + d', r)
      | _, _, _, _ => None
      end
  | _ => None
  end.

Definition simple_escape (e : Z) : option Z :=
  if e =? 34 then Some 34 else if e =? 92 then Some 92
  else if e =? 47 then Some 47 else if e =? 98 then Some 8
  else if e =? 102 then Some 12 else if e =? 110 then Some 10
  else if e =? 114 then Some 13 else if e =? 116 then Some 9
  else None.

(** The rest of a string literal after its opening quote: its value and the
    text after the closing quote. *)
Fixpoint scan_string (n : nat) (s : pystr) : option (pystr * pystr) :=
  match n with
  | O => None
  | S n' =>
      match s with
      | [] => None
      | c :: s' =>
          if c =? 34 then Some ([], s')
          else if c =? 92 then
            match s' with
            | [] => None
            | e :: s'' =>
                if e =? 117 then
                  match read_hex4 s'' with
                  | None => None
                  | Some (v, r) =>
                      let (v', r') :=
                        if (55296 <=? v) && (v <=? 56319) then
                          match r with
                          | b :: u :: r2 =>
                              if (b =? 92) && (u =? 117) then
                                match read_hex4 r2 with
                                | Some (v2, r3) =>
                                    if (56320 <=? v2) && (v2 <=? 57343) then
                                      (65536 + (v - 55296) * 1024 + (v2 - 56320), r3)
                                    else (v, r)
                                | None => (v, r)
                                end
                              else (v, r)
                          | _ => (v, r)
                          end
                        else (v, r) in
                      match scan_string n' r' with
                      | Some (t, rest) => Some (v' :: t, rest)
                      | None => None
                      end
                  end
                else
                  match simple_escape e with
                  | None => None
                  | Some x =>
                      match scan_string n' s'' with
                      | Some (t, rest) => Some (x :: t, rest)
                      | None => None
                      end
                  end
            end
          else if c <? 32 then None
          else
            match scan_string n' s' with
            | Some (t, rest) => Some (c :: t, rest)
            | None => None
            end
      end
  end.

Fixpoint scan_value (n : nat) (s : pystr) : option (pyval * pystr) :=
  match n with
  | O => None
  | S n' =>
      match s with
      | [] => None
      | c :: s' =>
          if c =? 34 then
            match scan_string (length s') s' with
            | Some (t, r) => Some (PStr t, r)
            | None => None
            end
          else if c =? 123 then
            match skip_ws s' with
            | d :: r => if d =? 125 then Some (PDict [], r)
                        else scan_members n' (d :: r) []
            | [] => None
            end
          else if c =? 91 then
            match skip_ws s' with
            | d :: r => if d =? 93 then Some (PList [], r)
                        else scan_elems n' (d :: r) []
            | [] => None
            end
          else if is_prefix (lit "null") s then Some (PNone, skipn 4 s)
          else if is_prefix (lit "true") s then Some (PBool true, skipn 4 s)
          else if is_prefix (lit "false") s then Some (PBool false, skipn 5 s)
          else if is_prefix (lit "NaN") s then Some (PNum (lit "NaN"), skipn 3 s)
          else if is_prefix (lit "Infinity") s then
            Some (PNum (lit "Infinity"), skipn 8 s)
          else if is_prefix (lit "-Infinity") s then
            Some (PNum (lit "-Infinity"), skipn 9 s)
          else
            match scan_number s with
            | Some (l, r) => Some (PNum l, r)
            | None => None
            end
      end
  end
(** Members of a non-empty object, from a property name on. *)
with scan_members (n : nat) (s : pystr) (acc : list (pystr * pyval))
  : option (pyval * pystr) :=
  match n with
  | O => None
  | S n' =>
      match s with
      | c :: s' =>
          if c =? 34 then
            match scan_string (length s') s' with
            | None => None
            | Some (k, r) =>
                match skip_ws r with
                | d :: r2 =>
                    if d =? 58 then
                      match scan_value n' (skip_ws r2) with
                      | None => None
                      | Some (v, r3) =>
                          let acc' := dict_set k v acc in
                          match skip_ws r3 with
                          | e :: r4 =>
                              if e =? 125 then Some (PDict acc', r4)
                              else if e =? 44 then scan_members n' (skip_ws r4) acc'
                              else None
                          | [] => None
                          end
                      end
                    else None
                | [] => None
                end
            end
          else None
      | [] => None
      end
  end
(** Elements of a non-empty array. *)
with scan_elems (n : nat) (s : pystr) (acc : list pyval)
  : option (pyval * pystr) :=
  match n with
  | O => None
  | S n' =>
      match scan_value n' s with
      | None => None
      | Some (v, r) =>
          match skip_ws r with
          | e :: r2 =>
              if e =? 93 then Some (PList (acc ++ [v]), r2)
              else if e =? 44 then scan_elems n' (skip_ws r2) (acc ++ [v])
              else None
          | [] => None
          end
      end
  end.

End Json.

(** [json.loads(s)] for a [str] [s]: a leading BOM is refused, JSON
    whitespace is allowed around the value, and nothing else may follow it. *)
Definition json_loads (s : pystr) : option pyval :=
  if is_prefix [65279] s then None
  else
    match Json.scan_value (2 * length s + 2) (Json.skip_ws s) with
    | Some (v, r) => match Json.skip_ws r with [] => Some v | _ => None end
    | None => None
    end.

(** ** The regular expressions of the recovery path *)

(** The text before the first [c] and the text after it. *)
Fixpoint take_until (c : Z) (s : pystr) : option (pystr * pystr) :=
  match s with
  | [] => None
  | x :: s' =>
      if x =? c then Some ([], s')
      else match take_until c s' with
           | Some (g, r) => Some (x :: g, r)
           | None => None
           end
  end.

(** [re.match(r'"KEY"\s*:\s*"([\s\S]*?)"', s)]: group 1 of a match anchored
    at the start of [s].  The greedy [\s*] before a non-space character has
    a single outcome, and the lazy group ends at the first double quote. *)
Definition field_at (key s : pystr) : option pystr :=
  if is_prefix (qt :: key ++ [qt]) s then
    match lstrip_by py_isspace (skipn (length key + 2) s) with
    | c :: r =>
        if c =? colon then
          match lstrip_by py_isspace r with
          | d :: r2 =>
              if d =? qt then option_map fst (take_until qt r2) else None
          | [] => None
          end
        else None
    | [] => None
    end
  else None.

(** [re.search(r'"KEY"\s*:\s*"([\s\S]*?)"', s)]: the leftmost match. *)
Fixpoint search_field (key s : pystr) : option pystr :=
  match s with
  | [] => field_at key []
  | _ :: s' =>
      match field_at key s with
      | Some g => Some g
      | None => search_field key s'
      end
  end.

(** [re.match(r'"grammar"\s*:\s*(\[[\s\S]*?\])', s)]: group 1, from the
    opening bracket to the first closing bracket. *)
Definition grammar_at (s : pystr) : option pystr :=
  let key := lit "grammar" in
  if is_prefix (qt :: key ++ [qt]) s then
    match lstrip_by py_isspace (skipn (length key + 2) s) with
    | c :: r =>
        if c =? colon then
          match lstrip_by py_isspace r with
          | d :: r2 =>
              if d =? lbrack then
                option_map (fun '(g, _) => lbrack :: g ++ [rbrack])
                  (take_until rbrack r2)
              else None
          | [] => None
          end
        else None
    | [] => None
    end
  else None.

Fixpoint search_grammar (s : pystr) : option pystr :=
  match s with
  | [] => grammar_at []
  | _ :: s' =>
      match grammar_at s with
      | Some g => Some g
      | None => search_grammar s'
      end
  end.

(** [re.sub(r"```(json)?", "", s)] *)
Fixpoint unfence (s : pystr) : pystr :=
  match s with
  | 96 :: 96 :: 96 :: r =>
      match r with
      | 106 :: 115 :: 111 :: 110 :: r' => unfence r'
      | _ => unfence r
      end
  | c :: r => c :: unfence r
  | [] => []
  end.

(** [re.sub(r",\s*\]", "]", s)], scanning left to right; [pending] holds
    the whitespace read after a comma that may start a match. *)
Fixpoint repair_from (pending : option pystr) (s : pystr) : pystr :=
  match s with
  | [] => match pending with Some ws => comma :: ws | None => [] end
  | c :: s' =>
      match pending with
      | None =>
          if c =? comma then repair_from (Some []) s' else c :: repair_from None s'
      | Some ws =>
          if py_isspace c then repair_from (Some (ws ++ [c])) s'
          else if c =? rbrack then rbrack :: repair_from None s'
          else comma :: ws ++
                 (if c =? comma then repair_from (Some []) s'
                  else c :: repair_from None s')
      end
  end.

Definition repair_trailing_commas (s : pystr) : pystr := repair_from None s.

(** [re.findall(r"\{[\s\S]*?\}", s)]: each match runs from an opening brace
    to the first closing brace after it; [cur] is the match being read. *)
Fixpoint objects_from (cur : option pystr) (s : pystr) : list pystr :=
  match s with
  | [] => []
  | c :: s' =>
      match cur with
      | None =>
          if c =? lbrace then objects_from (Some [lbrace]) s'
          else objects_from None s'
      | Some acc =>
          if c =? rbrace then (acc ++ [rbrace]) :: objects_from None s'
          else objects_from (Some (acc ++ [c])) s'
      end
  end.

Definition find_objects (s : pystr) : list pystr := objects_from None s.

(** ** validation.py *)

(** The normalised grammar entry built by [_normalize_grammar_items] and by
    the last-resort branch of the recovery path. *)
Record grammar_item : Type := {
  g_word : pystr;
  g_explanation : pystr;
  g_function : pystr;
  g_additional_info : pystr;
  g_examples : pystr;
  g_difficulty : pystr
}.

(** The dict literal with the six keys, in the source's order. *)
Definition item_to_dict (g : grammar_item) : pyval :=
  PDict [(lit "word", PStr (g_word g));
         (lit "explanation", PStr (g_explanation g));
         (lit "function", PStr (g_function g));
         (lit "additional_info", PStr (g_additional_info g));
         (lit "examples", PStr (g_examples g));
         (lit "difficulty", PStr (g_difficulty g))].

(** [g["word"] or g["explanation"]] *)
Definition keep_item (g : grammar_item) : bool :=
  nonempty (g_word g) || nonempty (g_explanation g).

(** The dict returned by [parse_and_validate_translation]. *)
Record normalized : Type := {
  original : pystr;
  translation : pystr;
  grammar : pystr;
  grammar_json : pyval
}.

(** [for item in v]: a list yields its elements, a string its characters, a
    dict its keys; anything else raises [TypeError]. *)
Definition py_iter (v : pyval) : option (list pyval) :=
  match v with
  | PList xs => Some xs
  | PStr s => Some (map (fun c => PStr [c]) s)
  | PDict kvs => Some (map (fun kv => PStr (fst kv)) kvs)
  | _ => None
  end.

(** [item.get(k, "").strip()]: [AttributeError] unless [item] is a dict and
    the value found is a string. *)
Definition get_stripped (item : pyval) (k : pystr) : option pystr :=
  match item with
  | PDict kvs =>
      match dict_get_or kvs k (PStr []) with
      | PStr s => Some (py_strip s)
      | _ => None
      end
  | _ => None
  end.

(** The loop of [_build_grammar_text]: the lines it appends. *)
Fixpoint grammar_lines (items : list pyval) : option (list pystr) :=
  match items with
  | [] => Some []
  | item :: rest =>
      match get_stripped item (lit "word"),
            get_stripped item (lit "explanation"),
            get_stripped item (lit "function") with
      | Some word, Some explanation, Some function =>
          if negb (nonempty word || nonempty explanation) then grammar_lines rest
          else
            let line :=
              if nonempty word then lit "- " ++ word ++ lit ": " ++ explanation
              else lit "- " ++ explanation in
            let line :=
              if nonempty function then line ++ lit " (" ++ function ++ lit ")"
              else line in
            match grammar_lines rest with
            | Some ls => Some (line :: ls)
            | None => None
            end
      | _, _, _ => None
      end
  end.

Definition _build_grammar_text (items : pyval) : option pystr :=
  match py_iter items with
  | None => None
  | Some xs =>
      match grammar_lines xs with
      | Some ls => Some (join [newline] ls)
      | None => None
      end
  end.

(** Stage 1 on a string payload: strip, drop fence backticks, and cut from
    the first opening brace to the last closing brace. *)
Definition stage1_text (p : pystr) : pystr :=
  let s := py_strip p in
  let s := if is_prefix (lit "```") s then strip_by (Z.eqb backtick) s else s in
  match str_find lbrace s, str_rfind rbrace s with
  | Some start, Some end_ => if (start <? end_)%nat then slice start (S end_) s else s
  | _, _ => s
  end.

(** Extraction of the fields of the recovery path's last resort. *)
Definition regex_field (obj : pystr) (name : string) : pystr :=
  match search_field (lit name) obj with Some g => py_strip g | None => [] end.

Definition regex_item (obj : pystr) : grammar_item := {|
  g_word := regex_field obj "word";
  g_explanation := regex_field obj "explanation";
  g_function := regex_field obj "function";
  g_additional_info := regex_field obj "additional_info";
  g_examples := regex_field obj "examples";
  g_difficulty := regex_field obj "difficulty" |}.

Section Normaliser.

(** [str(v)] for a value that is neither a [str] nor [None]. *)
Variable py_str : pyval -> pystr.
(** [json.dumps(v)]; [None] when it raises. *)
Variable json_dumps : pyval -> option pystr.

Definition _as_string (v : pyval) : pystr :=
  match v with
  | PStr s => s
  | PNone => []
  | _ => py_str v
  end.

Definition normalize_entry (kvs : list (pystr * pyval)) : grammar_item := {|
  g_word := py_strip (_as_string (dict_get_or kvs (lit "word") (PStr [])));
  g_explanation := py_strip (_as_string (dict_get_or kvs (lit "explanation") (PStr [])));
  g_function := py_strip (_as_string (dict_get_or kvs (lit "function") (PStr [])));
  g_additional_info :=
    py_strip (_as_string (dict_get_or kvs (lit "additional_info") (PStr [])));
  g_examples := py_strip (_as_string (dict_get_or kvs (lit "examples") (PStr [])));
  g_difficulty := py_strip (_as_string (dict_get_or kvs (lit "difficulty") (PStr []))) |}.

(** The [for item in value: if isinstance(item, dict)] loop. *)
Fixpoint normalize_entries (xs : list pyval) : list grammar_item :=
  match xs with
  | [] => []
  | PDict kvs :: r => normalize_entry kvs :: normalize_entries r
  | _ :: r => normalize_entries r
  end.

Definition _normalize_grammar_items (value : pyval) : pyval :=
  match value with
  | PList xs => PList (map item_to_dict (filter keep_item (normalize_entries xs)))
  | _ => PList []
  end.

(** The [try] block: [None] when it raises ([json.loads] fails, or [data] is
    not a dict so that [data.get] raises). *)
Definition try_block (payload : pyval) : option (pystr * pystr * pyval) :=
  let data :=
    match payload with
    | PStr p => json_loads (stage1_text p)
    | PDict kvs => Some (PDict kvs)
    | _ => Some (PDict [])
    end in
  match data with
  | Some (PDict kvs) =>
      Some (py_strip (_as_string (dict_get_or kvs (lit "original") (PStr []))),
            py_strip (_as_string (dict_get_or kvs (lit "translation") (PStr []))),
            _normalize_grammar_items (dict_get_or kvs (lit "grammar") (PList [])))
  | _ => None
  end.

(** The [except] block, entered with [original = ""], [translation = ""]
    and [grammar_items = []]. *)
Definition except_block (payload : pyval) : pystr * pystr * pyval :=
  let s0 := match payload with PStr p => Some p | _ => json_dumps payload end in
  match s0 with
  | None => ([], [], PList [])
  | Some s0 =>
      let s := unfence s0 in
      let original :=
        match search_field (lit "original") s with Some g => py_strip g | None => [] end in
      let translation :=
        match search_field (lit "translation") s with Some g => py_strip g | None => [] end in
      let grammar_items :=
        match search_grammar s with
        | None => PList []
        | Some gram_str =>
            match json_loads gram_str with
            | Some v => v
            | None =>
                match json_loads (repair_trailing_commas gram_str) with
                | Some v => v
                | None =>
                    PList (map item_to_dict
                             (filter keep_item (map regex_item (find_objects gram_str))))
                end
            end
        end in
      (original, translation, grammar_items)
  end.

(** [None] when the call raises. *)
Definition parse_and_validate_translation (payload : pyval) : option normalized :=
  let '(o, t, g) :=
    match try_block payload with Some r => r | None => except_block payload end in
  match _build_grammar_text g with
  | Some grammar_text =>
      Some {| original := o; translation := t; grammar := grammar_text;
              grammar_json := g |}
  | None => None
  end.

End Normaliser.

(** ** The rendering as the specification words it

    A grammar item given by its word, explanation and function. *)
Definition spec_line (w e f : pystr) : option pystr :=
  if negb (nonempty w || nonempty e) then None
  else Some ((if nonempty w then lit "- " ++ w ++ lit ": " ++ e else lit "- " ++ e)
             ++ (if nonempty f then lit " (" ++ f ++ lit ")" else [])).

Fixpoint spec_lines (ts : list (pystr * pystr * pystr)) : list pystr :=
  match ts with
  | [] => []
  | (w, e, f) :: r =>
      match spec_line w e f with
      | Some l => l :: spec_lines r
      | None => spec_lines r
      end
  end.

(** The rendering with the fields used verbatim. *)
Definition render_verbatim (ts : list (pystr * pystr * pystr)) : pystr :=
  join [newline] (spec_lines ts).

(** The rendering with the fields stripped of surrounding whitespace first. *)
Definition render_stripped (ts : list (pystr * pystr * pystr)) : pystr :=
  render_verbatim (map (fun '(w, e, f) => (py_strip w, py_strip e, py_strip f)) ts).

(** A grammar item as a dict with the three keys the rendering reads. *)
Definition triple_item (t : pystr * pystr * pystr) : pyval :=
  let '(w, e, f) := t in
  PDict [(lit "word", PStr w); (lit "explanation", PStr e); (lit "function", PStr f)].

(** A mapping whose [word], [explanation] and [function] entries are
    strings when present. *)
Definition grammar_item_shaped (v : pyval) : bool :=
  match v with
  | PDict kvs =>
      forallb (fun k => match dict_get kvs k with
                        | None | Some (PStr _) => true
                        | Some _ => false
                        end)
              [lit "word"; lit "explanation"; lit "function"]
  | _ => false
  end.

(** The string entry [k] of an item, [""] when absent. *)
Definition entry_or_empty (v : pyval) (k : pystr) : pystr :=
  match v with
  | PDict kvs => match dict_get_or kvs k (PStr []) with PStr s => s | _ => [] end
  | _ => []
  end.

Definition item_triple (v : pyval) : pystr * pystr * pystr :=
  (entry_or_empty v (lit "word"), entry_or_empty v (lit "explanation"),
   entry_or_empty v (lit "function")).

(** ** Sample payloads *)

(** [interjeccion] with its accented [o] (U+00F3). *)
Definition interjeccion : pystr := lit "interjecci" ++ [243] ++ lit "n".

Definition ciao_payload : pyval :=
  PDict [(lit "original", PStr (lit "Ciao"));
         (lit "translation", PStr (lit "Hola"));
         (lit "grammar",
          PList [PDict [(lit "word", PStr (lit "Ciao"));
                        (lit "explanation", PStr (lit "Hola"));
                        (lit "function", PStr interjeccion)]])].

Definition ciao_result : normalized := {|
  original := lit "Ciao";
  translation := lit "Hola";
  grammar := lit "- Ciao: Hola (" ++ interjeccion ++ lit ")";
  grammar_json :=
    PList [item_to_dict {| g_word := lit "Ciao"; g_explanation := lit "Hola";
                           g_function := interjeccion; g_additional_info := [];
                           g_examples := []; g_difficulty := [] |}] |}.

Definition prose_payload : pystr :=
  jlit "Result: {~ 'original': 'Ciao', ~ 'translation': 'Hola', ~ 'grammar': []~ } End".

(** Broken JSON (a trailing comma closes the grammar array) whose array,
    once repaired, holds a number. *)
Definition number_in_array_payload : pystr :=
  jlit "{'original': 'Ciao', 'translation': 'Hola', 'grammar': [1,]}".

(** The same with an empty object in the array. *)
Definition empty_object_payload : pystr :=
  jlit "{'original': 'Ciao', 'translation': 'Hola', 'grammar': [{},]}".

(** The same with an object holding only a word. *)
Definition word_only_payload : pystr :=
  jlit "{'original': 'Ciao', 'translation': 'Hola', 'grammar': [{'word': 'Ciao'},]}".

(** A recovery-path payload with an escaped quote in [original]: the
    JSON value of that field is [say "hi"]. *)
Definition escaped_quote_payload : pystr :=
  jlit "{'original': 'say \'hi\'', 'translation': 'Hola', 'grammar': [{'word': 'a', 'explanation': 'b'},]}".

(** A recovery-path payload whose grammar array ends in a trailing comma. *)
Definition trailing_comma_payload : pystr :=
  jlit "{'original': ' Ciao ', 'translation': 'Hola', 'grammar': [{'word': 'Ciao', 'explanation': 'Hola'},]}".

(** The text of a well-formed JSON translation object. *)
Definition fenced_body : pystr :=
  jlit "'original': 'Ciao', 'translation': 'Hola', 'grammar': [{'word': 'Ciao', 'explanation': 'Hola'}]".

(** A payload whose grammar array misses the comma between its two objects:
    neither stage 1 nor the repaired array is JSON. *)
Definition missing_comma_payload : pystr :=
  jlit "{'original': 'Ciao', 'translation': 'Hola', 'grammar': [{'word': 'Ciao', 'explanation': 'Hola'} {'word': 'a'}]}".

(** [u] holds the quoted key [key] for the first time at the end of [pre],
    followed by whitespace, a colon, whitespace and the quoted text [v],
    which holds no double quote. *)
Definition first_field_value (key u v : pystr) : Prop :=
  exists pre ws1 ws2 post,
    u = pre ++ qt :: key ++ qt :: ws1 ++ colon :: ws2 ++ qt :: v ++ qt :: post /\
    forallb (fun n => negb (is_prefix (qt :: key ++ [qt]) (skipn n u)))
            (seq 0 (length pre)) = true /\
    forallb py_isspace ws1 = true /\ forallb py_isspace ws2 = true /\
    forallb (fun c => negb (c =? qt)) v = true.

(** ** main.py: the re-serialisation of the model's response

    [translate_text_with_explanation] cuts the JSON object out of the model's
    reply, parses it and writes back [json.dumps] of a three-key dict; the
    result is what [parse_and_validate_translation] later receives. *)

(** A digit of ['{0:04x}'.format(i)]. *)
Definition hexdig (d : Z) : Z := if d <? 10 then 48 + d else 87 + d.

(** One character of a string written by [json.dumps(..., ensure_ascii=False)]:
    backslash, double quote and control characters escaped, the rest as is. *)
Definition escape_char (c : Z) : pystr :=
  if c =? 92 then [92; 92]
  else if c =? 34 then [92; 34]
  else if c =? 8 then [92; 98]
  else if c =? 12 then [92; 102]
  else if c =? 10 then [92; 110]
  else if c =? 13 then [92; 114]
  else if c =? 9 then [92; 116]
  else if c <=? 31 then [92; 117; 48; 48; hexdig (c / 16); hexdig (c mod 16)]
  else [c].

Definition encode_string (s : pystr) : pystr := qt :: flat_map escape_char s ++ [qt].

Section Dumps.

(** [repr] of the [int] or [float] a JSON number literal denotes. *)
Variable num_text : pystr -> pystr.

(** [json.dumps(v, ensure_ascii=False)] with the default separators. *)
Fixpoint dumps (v : pyval) : pystr :=
  match v with
  | PNone => lit "null"
  | PBool true => lit "true"
  | PBool false => lit "false"
  | PNum l => num_text l
  | PStr s => encode_string s
  | PList xs => lbrack :: join (lit ", ") (map dumps xs) ++ [rbrack]
  | PDict kvs =>
      lbrace :: join (lit ", ")
                  (map (fun kv => encode_string (fst kv) ++ lit ": " ++ dumps (snd kv)) kvs)
             ++ [rbrace]
  end.

End Dumps.

(** [_extract_json_block], nested in [translate_text_with_explanation]. *)
Definition _extract_json_block (s : pystr) : pystr :=
  let s := py_strip s in
  let s := if is_prefix (lit "```") s then strip_by (Z.eqb backtick) s else s in
  match str_find lbrace s, str_rfind rbrace s with
  | Some start, Some end_ => if (start <? end_)%nat then slice start (S end_) s else s
  | _, _ => s
  end.

(** The post-processing of [translate_text_with_explanation] on the stripped
    reply [result]: on a parsed dict, [json.dumps] of its three fields;
    otherwise ([json.loads] raises, or [parsed.get] does on a non-dict) the
    reply as it is. *)
Definition normalize_response (num_text : pystr -> pystr) (result : pystr) : pystr :=
  let cleaned := _extract_json_block result in
  match json_loads cleaned with
  | Some (PDict parsed) =>
      dumps num_text
        (PDict [(lit "original", dict_get_or parsed (lit "original") (PStr []));
                (lit "translation", dict_get_or parsed (lit "translation") (PStr []));
                (lit "grammar", dict_get_or parsed (lit "grammar") (PList []))])
  | _ => result
  end.

(** The [word_cache] of [SubtitleTranslator.__init__]. *)
Definition word_cache : list (pystr * pyval) :=
  [(lit "ciao",
    PDict [(lit "translation", PStr (lit "hola"));
           (lit "grammar",
            PList [PDict [(lit "word", PStr (lit "ciao"));
                          (lit "explanation", PStr (lit "saludo informal"));
                          (lit "function", PStr interjeccion)]])]);
   (lit "grazie",
    PDict [(lit "translation", PStr (lit "gracias"));
           (lit "grammar",
            PList [PDict [(lit "word", PStr (lit "grazie"));
                          (lit "explanation",
                           PStr (lit "expresi" ++ [243] ++ lit "n de agradecimiento"));
                          (lit "function", PStr interjeccion)]])]);
   (lit "prego",
    PDict [(lit "translation", PStr (lit "de nada"));
           (lit "grammar",
            PList [PDict [(lit "word", PStr (lit "prego"));
                          (lit "explanation", PStr (lit "respuesta a gracias"));
                          (lit "function", PStr interjeccion)]])])].

(** [v[k]]: [KeyError] or [TypeError] is [None]. *)
Definition subscript (v : pyval) (k : pystr) : option pyval :=
  match v with PDict kvs => dict_get kvs k | _ => None end.

(** The reply of [translate_text_with_explanation] on a cache hit, given the
    [cached_result] found for [texto]. *)
Definition cache_hit_reply (num_text : pystr -> pystr) (texto : pystr) (cached_result : pyval)
  : option pystr :=
  match subscript cached_result (lit "translation"), subscript cached_result (lit "grammar") with
  | Some t, Some g =>
      Some (dumps num_text
              (PDict [(lit "original", PStr texto); (lit "translation", t);
                      (lit "grammar", g)]))
  | _, _ => None
  end.

(** A value with no number in it. *)
Fixpoint no_numbers (v : pyval) : bool :=
  match v with
  | PNum _ => false
  | PList xs => forallb no_numbers xs
  | PDict kvs => forallb (fun kv => no_numbers (snd kv)) kvs
  | _ => true
  end.

Fixpoint nodupb (ks : list pystr) : bool :=
  match ks with
  | [] => true
  | k :: r => negb (existsb (pystr_eqb k) r) && nodupb r
  end.

(** A value as Python can hold it: code points are non-negative and the keys
    of every dict are distinct. *)
Fixpoint well_formed_value (v : pyval) : bool :=
  match v with
  | PStr s => forallb (Z.leb 0) s
  | PList xs => forallb well_formed_value xs
  | PDict kvs =>
      nodupb (map fst kvs)
      && forallb (fun kv => forallb (Z.leb 0) (fst kv) && well_formed_value (snd kv)) kvs
  | _ => true
  end.

(** Induction on values, with the hypothesis for every element of a list or
    value of a dict. *)
Section PyvalInd.
Variable P : pyval -> Prop.
Hypothesis HNone : P PNone.
Hypothesis HBool : forall b, P (PBool b).
Hypothesis HNum : forall l, P (PNum l).
Hypothesis HStr : forall s, P (PStr s).
Hypothesis HList : forall xs, Forall P xs -> P (PList xs).
Hypothesis HDict : forall kvs, Forall (fun kv => P (snd kv)) kvs -> P (PDict kvs).

Fixpoint pyval_rect' (v : pyval) : P v :=
  match v with
  | PNone => HNone
  | PBool b => HBool b
  | PNum l => HNum l
  | PStr s => HStr s
  | PList xs =>
      HList xs ((fix go (xs : list pyval) : Forall P xs :=
                   match xs with
                   | [] => Forall_nil _
                   | x :: r => Forall_cons x (pyval_rect' x) (go r)
                   end) xs)
  | PDict kvs =>
      HDict kvs ((fix go (kvs : list (pystr * pyval)) : Forall (fun kv => P (snd kv)) kvs :=
                    match kvs with
                    | [] => Forall_nil _
                    | kv :: r => Forall_cons kv (pyval_rect' (snd kv)) (go r)
                    end) kvs)
  end.
End PyvalInd.

(** ** Lemmas on the string operations *)

Lemma lstrip_by_head_kept (p : Z -> bool) (c : Z) (s : pystr) :
  p c = false -> lstrip_by p (c :: s) = c :: s.
Proof. intros H. simpl. rewrite H. reflexivity. Qed.

Lemma lstrip_by_app_all (p : Z -> bool) (ws s : pystr) :
  forallb p ws = true -> lstrip_by p (ws ++ s) = lstrip_by p s.
Proof.
  induction ws as [|c ws IH]; simpl; [reflexivity|].
  intros H. apply andb_prop in H as [Hc Hws]. rewrite Hc. apply IH, Hws.
Qed.

Lemma strip_by_kept (p : Z -> bool) (c d : Z) (m : pystr) :
  p c = false -> p d = false -> strip_by p (c :: m ++ [d]) = c :: m ++ [d].
Proof.
  intros Hc Hd. unfold strip_by.
  rewrite lstrip_by_head_kept by exact Hc.
  assert (E : rev (c :: m ++ [d]) = d :: rev (c :: m)).
  { change (c :: m ++ [d]) with ((c :: m) ++ [d]). rewrite rev_app_distr. reflexivity. }
  rewrite E, lstrip_by_head_kept by exact Hd.
  rewrite <- E, rev_involutive. reflexivity.
Qed.

Lemma str_find_app_absent (c : Z) (x y : pystr) :
  forallb (fun z => negb (z =? c)) x = true ->
  str_find c (x ++ y) = option_map (Nat.add (length x)) (str_find c y).
Proof.
  induction x as [|a x IH]; simpl; intros H.
  - destruct (str_find c y); reflexivity.
  - apply andb_prop in H as [Ha Hx]. apply negb_true_iff in Ha. rewrite Ha, IH by exact Hx.
    destruct (str_find c y); reflexivity.
Qed.

Lemma str_rfind_app_found (c : Z) (x y : pystr) (i : nat) :
  str_rfind c y = Some i -> str_rfind c (x ++ y) = Some (length x + i)%nat.
Proof.
  intros H. induction x as [|a x IH]; simpl; [exact H|]. rewrite IH. reflexivity.
Qed.

Lemma str_rfind_app_absent (c : Z) (x y : pystr) :
  str_rfind c y = None -> str_rfind c (x ++ y) = str_rfind c x.
Proof.
  intros H. induction x as [|a x IH]; simpl; [exact H|]. rewrite IH. reflexivity.
Qed.

Lemma str_rfind_absent (c : Z) (y : pystr) :
  forallb (fun z => negb (z =? c)) y = true -> str_rfind c y = None.
Proof.
  induction y as [|a y IH]; simpl; intros H; [reflexivity|].
  apply andb_prop in H as [Ha Hy]. apply negb_true_iff in Ha.
  rewrite IH by exact Hy. rewrite Ha. reflexivity.
Qed.

Lemma str_rfind_last (c : Z) (x : pystr) :
  str_rfind c (x ++ [c]) = Some (length x).
Proof.
  rewrite (str_rfind_app_found c x [c] 0); [f_equal; lia|].
  simpl. rewrite Z.eqb_refl. reflexivity.
Qed.

Lemma space_differs (c d : Z) :
  py_isspace d = false -> py_isspace c = true -> (c =? d) = false.
Proof.
  intros Hd Hc. apply Z.eqb_neq. intros E. subst. congruence.
Qed.

Lemma spaces_avoid (d : Z) (ws : pystr) :
  py_isspace d = false -> forallb py_isspace ws = true ->
  forallb (fun z => negb (z =? d)) ws = true.
Proof.
  intros Hd. induction ws as [|a ws IH]; simpl; intros H; [reflexivity|].
  apply andb_prop in H as [Ha Hws].
  rewrite (space_differs a d Hd Ha), IH by exact Hws. reflexivity.
Qed.

Lemma is_prefix_app (p s : pystr) : is_prefix p (p ++ s) = true.
Proof.
  induction p as [|a p IH]; simpl; [reflexivity|]. rewrite Z.eqb_refl, IH. reflexivity.
Qed.

Lemma take_until_absent (c : Z) (v post : pystr) :
  forallb (fun z => negb (z =? c)) v = true ->
  take_until c (v ++ c :: post) = Some (v, post).
Proof.
  induction v as [|a v IH]; simpl; intros H.
  - rewrite Z.eqb_refl. reflexivity.
  - apply andb_prop in H as [Ha Hv]. apply negb_true_iff in Ha.
    rewrite Ha, IH by exact Hv. reflexivity.
Qed.

(** The regular expression matches at the position of the quoted key. *)
Lemma field_at_value (key ws1 ws2 v post : pystr) :
  forallb py_isspace ws1 = true -> forallb py_isspace ws2 = true ->
  forallb (fun c => negb (c =? qt)) v = true ->
  field_at key (qt :: key ++ qt :: ws1 ++ colon :: ws2 ++ qt :: v ++ qt :: post) = Some v.
Proof.
  intros H1 H2 Hv. unfold field_at.
  assert (E : qt :: key ++ qt :: ws1 ++ colon :: ws2 ++ qt :: v ++ qt :: post
              = (qt :: key ++ [qt]) ++ ws1 ++ colon :: ws2 ++ qt :: v ++ qt :: post).
  { simpl. rewrite <- app_assoc. reflexivity. }
  rewrite E, is_prefix_app.
  replace (length key + 2)%nat with (length (qt :: key ++ [qt]))
    by (simpl; rewrite length_app; simpl; lia).
  rewrite skipn_app, skipn_all, Nat.sub_diag, app_nil_l. cbn [skipn].
  rewrite lstrip_by_app_all by exact H1. simpl lstrip_by. simpl.
  rewrite lstrip_by_app_all by exact H2. simpl.
  rewrite take_until_absent by exact Hv. reflexivity.
Qed.

(** No match can start before the first occurrence of the quoted key. *)
Lemma search_field_skip (key pre x : pystr) :
  (forall n, (n < length pre)%nat ->
             is_prefix (qt :: key ++ [qt]) (skipn n (pre ++ x)) = false) ->
  x <> [] ->
  search_field key (pre ++ x) = search_field key x.
Proof.
  induction pre as [|a pre IH]; intros H Hx; [reflexivity|].
  assert (H0 := H 0%nat ltac:(simpl; lia)). cbn [skipn] in H0.
  change (search_field key ((a :: pre) ++ x)) with
    (match field_at key (a :: pre ++ x) with
     | Some g => Some g
     | None => search_field key (pre ++ x)
     end).
  unfold field_at at 1. rewrite <- app_comm_cons in H0. rewrite H0.
  apply IH; [|exact Hx].
  intros n Hn. apply (H (S n)). simpl. lia.
Qed.

Lemma search_field_first (key u v : pystr) :
  first_field_value key u v -> search_field key u = Some v.
Proof.
  intros (pre & ws1 & ws2 & post & Eu & Hfirst & H1 & H2 & Hv).
  assert (Hn : forall n, (n < length pre)%nat ->
                is_prefix (qt :: key ++ [qt]) (skipn n u) = false).
  { intros n Hn. rewrite forallb_forall in Hfirst.
    apply negb_true_iff, Hfirst, in_seq. lia. }
  rewrite Eu in Hn |- *.
  rewrite search_field_skip by (exact Hn || discriminate).
  simpl search_field. rewrite field_at_value by assumption. reflexivity.
Qed.

Lemma lstrip_by_app_kept (p : Z -> bool) (s y : pystr) :
  match s with c :: _ => p c = false | [] => False end ->
  lstrip_by p (s ++ y) = s ++ y.
Proof. destruct s as [|c s]; [contradiction|]. intros H. simpl. rewrite H. reflexivity. Qed.

Lemma firstn_length_app (x y : pystr) : firstn (length x) (x ++ y) = x.
Proof.
  induction x as [|a x IH]; simpl; [reflexivity|]. rewrite IH. reflexivity.
Qed.

Lemma skipn_length_app (x y : pystr) : skipn (length x) (x ++ y) = y.
Proof. induction x as [|a x IH]; simpl; [reflexivity|]. exact IH. Qed.

(** Stage 1 leaves the text of a JSON object as it is. *)
Lemma stage1_text_object (body : pystr) :
  stage1_text (lbrace :: body ++ [rbrace]) = lbrace :: body ++ [rbrace].
Proof.
  unfold stage1_text, py_strip.
  rewrite strip_by_kept by reflexivity.
  replace (is_prefix (lit "```") (lbrace :: body ++ [rbrace])) with false by reflexivity.
  replace (str_find lbrace (lbrace :: body ++ [rbrace])) with (Some 0%nat) by reflexivity.
  rewrite app_comm_cons, str_rfind_last.
  replace ((0 <? length (lbrace :: body))%nat) with true
    by (symmetry; apply Nat.ltb_lt; simpl; lia).
  unfold slice. rewrite Nat.sub_0_r. cbn [skipn].
  replace (S (length (lbrace :: body))) with (length ((lbrace :: body) ++ [rbrace]))
    by (rewrite length_app; simpl; lia).
  rewrite <- (app_nil_r ((lbrace :: body) ++ [rbrace])) at 2.
  apply firstn_length_app.
Qed.

(** Stage 1 takes the object out of a fenced response. *)
Lemma stage1_text_fenced (tag w1 w2 body : pystr) :
  (tag = [] \/ tag = lit "json") ->
  forallb py_isspace w1 = true -> forallb py_isspace w2 = true ->
  stage1_text (lit "```" ++ tag ++ w1 ++ (lbrace :: body ++ [rbrace]) ++ w2 ++ lit "```")
  = lbrace :: body ++ [rbrace].
Proof.
  intros Htag H1 H2.
  set (T := lbrace :: body ++ [rbrace]).
  set (M := tag ++ w1 ++ T ++ w2).
  (* the first character of M is not a backtick *)
  assert (Hhead : match M with c :: _ => (backtick =? c) = false | [] => False end).
  { unfold M, T. destruct Htag as [-> | ->]; [|reflexivity].
    destruct w1 as [|c w1']; [reflexivity|].
    simpl in H1. change ((backtick =? c) = false). apply andb_prop in H1 as [Hc _].
    rewrite Z.eqb_sym. apply (space_differs c backtick); [reflexivity | exact Hc]. }
  (* the last character of M is not a backtick *)
  assert (Hlast : match rev M with c :: _ => (backtick =? c) = false | [] => False end).
  { unfold M, T. rewrite !rev_app_distr.
    destruct (rev w2) as [|c w2r] eqn:Ew2.
    - simpl. rewrite rev_app_distr. reflexivity.
    - assert (Hc : In c w2) by (apply in_rev; rewrite Ew2; left; reflexivity).
      rewrite forallb_forall in H2. change ((backtick =? c) = false).
      rewrite Z.eqb_sym. apply (space_differs c backtick); [reflexivity | apply H2, Hc]. }
  assert (EM : lit "```" ++ M ++ lit "```" = 96 :: (96 :: 96 :: M ++ [96; 96]) ++ [96]).
  { simpl. rewrite <- app_assoc. reflexivity. }
  replace (lit "```" ++ tag ++ w1 ++ T ++ w2 ++ lit "```") with (lit "```" ++ M ++ lit "```")
    by (unfold M; rewrite !app_assoc; reflexivity).
  unfold stage1_text, py_strip.
  rewrite EM, strip_by_kept by reflexivity. rewrite <- EM.
  rewrite is_prefix_app.
  assert (ES : strip_by (Z.eqb backtick) (lit "```" ++ M ++ lit "```") = M).
  { unfold strip_by.
    rewrite lstrip_by_app_all by reflexivity.
    rewrite lstrip_by_app_kept by exact Hhead.
    rewrite rev_app_distr. rewrite lstrip_by_app_all by reflexivity.
    destruct (rev M) as [|c Mr] eqn:ER; [contradiction|].
    rewrite lstrip_by_head_kept by exact Hlast.
    rewrite <- ER, rev_involutive. reflexivity. }
  rewrite ES.
  (* the braces *)
  assert (Hno : forallb (fun z => negb (z =? lbrace)) (tag ++ w1) = true).
  { rewrite forallb_app. apply andb_true_intro. split.
    - destruct Htag as [-> | ->]; reflexivity.
    - apply spaces_avoid; [reflexivity | exact H1]. }
  assert (EF : str_find lbrace M = Some (length (tag ++ w1))).
  { unfold M. rewrite app_assoc, str_find_app_absent by exact Hno.
    unfold T. simpl. rewrite Nat.add_0_r. reflexivity. }
  assert (ER : str_rfind rbrace M = Some (length (tag ++ w1) + S (length body))%nat).
  { unfold M. rewrite app_assoc, (app_assoc (tag ++ w1) T w2).
    rewrite str_rfind_app_absent
      by (apply str_rfind_absent, spaces_avoid; [reflexivity | exact H2]).
    apply str_rfind_app_found. unfold T. rewrite app_comm_cons, str_rfind_last.
    reflexivity. }
  rewrite EF, ER.
  replace ((length (tag ++ w1) <? length (tag ++ w1) + S (length body))%nat) with true
    by (symmetry; apply Nat.ltb_lt; lia).
  unfold slice, M. rewrite app_assoc, skipn_length_app.
  replace (S (length (tag ++ w1) + S (length body)) - length (tag ++ w1))%nat
    with (length T)
    by (unfold T; change (length (lbrace :: body ++ [rbrace]))
                    with (S (length (body ++ [rbrace])));
        rewrite length_app; cbn [length]; lia).
  apply firstn_length_app.
Qed.

Lemma get_stripped_shaped (kvs : list (pystr * pyval)) (k : pystr) :
  match dict_get kvs k with None | Some (PStr _) => true | Some _ => false end = true ->
  get_stripped (PDict kvs) k = Some (py_strip (entry_or_empty (PDict kvs) k)).
Proof.
  intros H. unfold get_stripped, entry_or_empty, dict_get_or.
  destruct (dict_get kvs k) as [[]|]; try discriminate; reflexivity.
Qed.

(** ** Properties *)

Section Properties.

Variable py_str : pyval -> pystr.
Variable json_dumps : pyval -> option pystr.


(** C1 (code defect): on the string [number_in_array_payload] stage 1 fails,
    the recovery path takes the repaired array [[1]] as it is, and
    [_build_grammar_text] raises on its element: the call raises. *)
Theorem C1_number_in_recovered_array_raises :
  parse_and_validate_translation py_str json_dumps (PStr number_in_array_payload) = None.
Proof. vm_compute. reflexivity. Qed.

(** C2: whenever [parse_and_validate_translation] returns, its [grammar]
    is [_build_grammar_text] of its [grammar_json]. *)
Theorem C2_grammar_is_rendering_of_grammar_json :
  forall payload r, parse_and_validate_translation py_str json_dumps payload = Some r ->
  _build_grammar_text (grammar_json r) = Some (grammar r).
Proof.
  intros payload r.
  unfold parse_and_validate_translation.
  destruct (match try_block py_str payload with
            | Some r0 => r0
            | None => except_block json_dumps payload
            end) as [[o t] g].
  destruct (_build_grammar_text g) as [txt|] eqn:E; intros H; inversion H; subst.
  simpl. exact E.
Qed.

(** C3 (code defect): on [empty_object_payload] the call returns a
    [grammar_json] whose only element is the empty dict: neither a word nor
    an explanation. *)
Theorem C3_empty_entry_kept_on_recovery :
  exists r, parse_and_validate_translation py_str json_dumps (PStr empty_object_payload) = Some r /\
            grammar_json r = PList [PDict []].
Proof. eexists. split; [vm_compute; reflexivity | reflexivity]. Qed.

(** C4 (code defect): on [word_only_payload] the call returns a
    [grammar_json] whose only element has the key [word] alone. *)
Theorem C4_entry_without_six_keys_on_recovery :
  exists r, parse_and_validate_translation py_str json_dumps (PStr word_only_payload) = Some r /\
            grammar_json r = PList [PDict [(lit "word", PStr (lit "Ciao"))]].
Proof. eexists. split; [vm_compute; reflexivity | reflexivity]. Qed.

(** C6: the well-formed mapping of the round-trip example. *)
Theorem C6_round_trip_example :
  parse_and_validate_translation py_str json_dumps ciao_payload = Some ciao_result.
Proof. vm_compute. reflexivity. Qed.

(** C7: the JSON object wrapped in prose is cut out and parsed. *)
Theorem C7_prose_wrapped_example :
  parse_and_validate_translation py_str json_dumps (PStr prose_payload) =
  Some {| original := lit "Ciao"; translation := lit "Hola";
          grammar := []; grammar_json := PList [] |}.
Proof. vm_compute. reflexivity. Qed.

(** C10: a payload that is neither a string nor a dict gives the
    all-default record. *)
Theorem C10_other_payload_defaults :
  forall payload,
  (forall s, payload <> PStr s) -> (forall kvs, payload <> PDict kvs) ->
  parse_and_validate_translation py_str json_dumps payload =
  Some {| original := []; translation := []; grammar := []; grammar_json := PList [] |}.
Proof.
  intros payload Hs Hd.
  destruct payload as [| b | l | s | xs | kvs];
    try (exfalso; eapply Hs; reflexivity);
    try (exfalso; eapply Hd; reflexivity);
    reflexivity.
Qed.

(** C5 (as amended): on a list of mappings whose [word], [explanation] and
    [function] entries are strings when present, [_build_grammar_text]
    returns; it strips the three fields, skips an item whose stripped word
    and explanation are both empty, writes ["- word: explanation"] or
    ["- explanation"] with [" (function)"] appended when the function is
    non-empty, and joins the lines with newlines ([""] for no line). *)
Theorem C5_build_grammar_text_renders_stripped_fields :
  forall xs, forallb grammar_item_shaped xs = true ->
  _build_grammar_text (PList xs) = Some (render_stripped (map item_triple xs)).
Proof.
  intros xs H. unfold _build_grammar_text, render_stripped, render_verbatim.
  cbn [py_iter].
  enough (E : grammar_lines xs =
              Some (spec_lines (map (fun '(w, e, f) => (py_strip w, py_strip e, py_strip f))
                                    (map item_triple xs))))
    by (rewrite E; reflexivity).
  induction xs as [|v xs IH]; [reflexivity|].
  cbn [forallb] in H. apply andb_prop in H as [Hv Hxs].
  destruct v as [| | | | | kvs]; try discriminate.
  cbn [grammar_item_shaped forallb] in Hv.
  apply andb_prop in Hv as [Hw Hv]. apply andb_prop in Hv as [He Hv].
  apply andb_prop in Hv as [Hf _].
  cbn [grammar_lines]. rewrite !get_stripped_shaped by assumption.
  rewrite (IH Hxs). cbn [map item_triple spec_lines]. unfold spec_line.
  destruct (nonempty (py_strip (entry_or_empty (PDict kvs) (lit "word")))),
           (nonempty (py_strip (entry_or_empty (PDict kvs) (lit "explanation")))),
           (nonempty (py_strip (entry_or_empty (PDict kvs) (lit "function"))));
    cbn [negb orb]; rewrite ?app_nil_r; reflexivity.
Qed.

(** C8 (as amended): when stage 1 raises on a string payload and the call
    returns, [original] is the stripped text that follows the first quoted
    key ["original"], whitespace, a colon, whitespace and a double quote in
    the fence-free payload, up to the next double quote (escapes are neither
    honoured nor decoded); likewise [translation]. *)
Theorem C8_recovered_fields_are_raw_quoted_text :
  forall p r vo vt,
  try_block py_str (PStr p) = None ->
  first_field_value (lit "original") (unfence p) vo ->
  first_field_value (lit "translation") (unfence p) vt ->
  parse_and_validate_translation py_str json_dumps (PStr p) = Some r ->
  original r = py_strip vo /\ translation r = py_strip vt.
Proof.
  intros p r vo vt Htry Ho Ht.
  unfold parse_and_validate_translation. rewrite Htry.
  unfold except_block. cbv beta iota zeta.
  rewrite (search_field_first _ _ _ Ho), (search_field_first _ _ _ Ht).
  destruct (_build_grammar_text _); intros H; inversion H; subst; split; reflexivity.
Qed.

(** C9: a JSON object wrapped in a triple-backtick fence, with or without
    the [json] tag and with whitespace around the object, gives the same
    record as the object alone. *)
Theorem C9_fenced_object_parsed_as_unfenced :
  forall tag w1 w2 body kvs,
  (tag = [] \/ tag = lit "json") ->
  forallb py_isspace w1 = true -> forallb py_isspace w2 = true ->
  json_loads (lbrace :: body ++ [rbrace]) = Some (PDict kvs) ->
  parse_and_validate_translation py_str json_dumps (PStr (lit "```" ++ tag ++ w1 ++ (lbrace :: body ++ [rbrace]) ++ w2 ++ lit "```"))
  = parse_and_validate_translation py_str json_dumps (PStr (lbrace :: body ++ [rbrace])).
Proof.
  intros tag w1 w2 body kvs Htag H1 H2 Hjson.
  unfold parse_and_validate_translation, try_block.
  rewrite stage1_text_fenced, stage1_text_object by assumption.
  rewrite Hjson. reflexivity.
Qed.

End Properties.

(** ** Concrete instances

    [str()] and [json.dumps] are not reached on the payloads below, so any
    function may stand for them; the constant ones are used. *)

Lemma C2_witness :
  parse_and_validate_translation (fun _ => []) (fun _ => None) ciao_payload
    = Some ciao_result /\
  _build_grammar_text (grammar_json ciao_result) = Some (grammar ciao_result).
Proof.
  split.
  - vm_compute. reflexivity.
  - apply (C2_grammar_is_rendering_of_grammar_json (fun _ => []) (fun _ => None)
             ciao_payload ciao_result).
    vm_compute. reflexivity.
Defined.

(** C5: a word with surrounding spaces is written stripped, not verbatim. *)
Lemma C5_padded_word_counterexample :
  _build_grammar_text (PList [triple_item (lit " a ", lit "b", [])]) = Some (lit "- a: b") /\
  render_verbatim [(lit " a ", lit "b", [])] = lit "-  a : b" /\
  lit "- a: b" <> lit "-  a : b".
Proof. split; [vm_compute; reflexivity | split; [vm_compute; reflexivity | discriminate]]. Qed.

Lemma C5_witness :
  forallb grammar_item_shaped
    [triple_item (lit " a ", lit "b", []); triple_item ([], [], lit "x");
     triple_item ([], lit "hello", lit "verb")] = true /\
  _build_grammar_text
    (PList [triple_item (lit " a ", lit "b", []); triple_item ([], [], lit "x");
            triple_item ([], lit "hello", lit "verb")])
  = Some (render_stripped
            (map item_triple
               [triple_item (lit " a ", lit "b", []); triple_item ([], [], lit "x");
                triple_item ([], lit "hello", lit "verb")])).
Proof.
  split; [vm_compute; reflexivity|].
  apply C5_build_grammar_text_renders_stripped_fields. vm_compute. reflexivity.
Defined.

(** C8: the JSON value of [original] is [say "hi"], the recovery path gives
    [say \]. *)
Lemma C8_escaped_quote_counterexample :
  json_loads (jlit "'say \'hi\''") = Some (PStr (jlit "say 'hi'")) /\
  try_block (fun _ => []) (PStr escaped_quote_payload) = None /\
  exists r,
    parse_and_validate_translation (fun _ => []) (fun _ => None)
      (PStr escaped_quote_payload) = Some r /\
    original r = jlit "say \" /\ original r <> jlit "say 'hi'".
Proof.
  split; [vm_compute; reflexivity|]. split; [vm_compute; reflexivity|].
  eexists. split; [vm_compute; reflexivity|].
  split; [reflexivity | vm_compute; discriminate].
Qed.

Lemma C8_witness :
  exists r,
    parse_and_validate_translation (fun _ => []) (fun _ => None)
      (PStr trailing_comma_payload) = Some r /\
    original r = py_strip (lit " Ciao ") /\ translation r = py_strip (lit "Hola").
Proof.
  eexists. split; [vm_compute; reflexivity|].
  apply (C8_recovered_fields_are_raw_quoted_text (fun _ => []) (fun _ => None)
           trailing_comma_payload _ (lit " Ciao ") (lit "Hola")).
  - vm_compute. reflexivity.
  - exists (jlit "{"), [], (lit " "),
      (jlit ", 'translation': 'Hola', 'grammar': [{'word': 'Ciao', 'explanation': 'Hola'},]}").
    repeat split; vm_compute; reflexivity.
  - exists (jlit "{'original': ' Ciao ', "), [], (lit " "),
      (jlit ", 'grammar': [{'word': 'Ciao', 'explanation': 'Hola'},]}").
    repeat split; vm_compute; reflexivity.
  - vm_compute. reflexivity.
Defined.

Lemma C9_witness :
  json_loads (lbrace :: fenced_body ++ [rbrace]) =
    Some (PDict [(lit "original", PStr (lit "Ciao"));
                 (lit "translation", PStr (lit "Hola"));
                 (lit "grammar", PList [PDict [(lit "word", PStr (lit "Ciao"));
                                               (lit "explanation", PStr (lit "Hola"))]])]) /\
  parse_and_validate_translation (fun _ => []) (fun _ => None)
    (PStr (lit "```" ++ lit "json" ++ [newline] ++ (lbrace :: fenced_body ++ [rbrace])
           ++ [newline] ++ lit "```"))
  = parse_and_validate_translation (fun _ => []) (fun _ => None)
      (PStr (lbrace :: fenced_body ++ [rbrace])).
Proof.
  split; [vm_compute; reflexivity|].
  apply (C9_fenced_object_parsed_as_unfenced (fun _ => []) (fun _ => None)
           (lit "json") [newline] [newline] fenced_body
           [(lit "original", PStr (lit "Ciao"));
            (lit "translation", PStr (lit "Hola"));
            (lit "grammar", PList [PDict [(lit "word", PStr (lit "Ciao"));
                                          (lit "explanation", PStr (lit "Hola"))]])]).
  - right. reflexivity.
  - reflexivity.
  - reflexivity.
  - vm_compute. reflexivity.
Defined.

Lemma C10_witness :
  parse_and_validate_translation (fun _ => []) (fun _ => None) PNone =
  Some {| original := []; translation := []; grammar := []; grammar_json := PList [] |}.
Proof.
  apply C10_other_payload_defaults; intros x H; discriminate.
Defined.

Lemma escape_char_scan (c : Z) (n : nat) (r : pystr) :
  0 <= c ->
  Json.scan_string (S n) (escape_char c ++ r)
  = match Json.scan_string n r with Some (t, rest) => Some (c :: t, rest) | None => None end.
Proof.
  intros Hc. destruct (Z_lt_le_dec c 32) as [Hlt|Hge].
  - assert (Hk : exists k : nat, (k < 32)%nat /\ c = Z.of_nat k)
      by (exists (Z.to_nat c); split; lia).
    destruct Hk as [k [Hk ->]].
    do 32 (destruct k as [|k]; [reflexivity|]). lia.
  - unfold escape_char.
    destruct (c =? 92) eqn:E92; [apply Z.eqb_eq in E92; subst; reflexivity|].
    destruct (c =? 34) eqn:E34; [apply Z.eqb_eq in E34; subst; reflexivity|].
    replace (c =? 8) with false by (symmetry; apply Z.eqb_neq; lia).
    replace (c =? 12) with false by (symmetry; apply Z.eqb_neq; lia).
    replace (c =? 10) with false by (symmetry; apply Z.eqb_neq; lia).
    replace (c =? 13) with false by (symmetry; apply Z.eqb_neq; lia).
    replace (c =? 9) with false by (symmetry; apply Z.eqb_neq; lia).
    replace (c <=? 31) with false by (symmetry; apply Z.leb_gt; lia).
    cbn [app Json.scan_string]. rewrite E34, E92.
    replace (c <? 32) with false by (symmetry; apply Z.ltb_ge; lia).
    reflexivity.
Qed.

Lemma escape_char_length (c : Z) : (1 <= length (escape_char c))%nat.
Proof.
  unfold escape_char.
  repeat match goal with |- context [if ?b then _ else _] => destruct b end; simpl; lia.
Qed.

Lemma scan_string_encoded (s rest : pystr) (n : nat) :
  forallb (Z.leb 0) s = true ->
  (length (flat_map escape_char s) < n)%nat ->
  Json.scan_string n (flat_map escape_char s ++ qt :: rest) = Some (s, rest).
Proof.
  revert n. induction s as [|c s IH]; intros n Hs Hn.
  - destruct n as [|n]; [lia|]. reflexivity.
  - simpl in Hs. apply andb_prop in Hs as [Hc Hs]. apply Z.leb_le in Hc.
    destruct n as [|n]; [lia|].
    cbn [flat_map]. rewrite <- app_assoc, escape_char_scan by exact Hc.
    rewrite IH; [reflexivity | exact Hs|].
    cbn [flat_map] in Hn. rewrite length_app in Hn.
    pose proof (escape_char_length c). lia.
Qed.

Lemma pystr_eqb_true (a b : pystr) : pystr_eqb a b = true <-> a = b.
Proof.
  unfold pystr_eqb. destruct (list_eq_dec Z.eq_dec a b); split; congruence.
Qed.

Lemma nodupb_app_cons (l1 l2 : list pystr) (k : pystr) :
  nodupb (l1 ++ k :: l2) = true -> existsb (pystr_eqb k) l1 = false.
Proof.
  induction l1 as [|a l1 IH]; simpl; intros H; [reflexivity|].
  apply andb_prop in H as [Ha H]. rewrite IH by exact H.
  destruct (pystr_eqb k a) eqn:E; [|reflexivity].
  apply pystr_eqb_true in E. subst.
  rewrite existsb_app in Ha. simpl in Ha. unfold pystr_eqb in Ha.
  destruct (list_eq_dec Z.eq_dec a a); [|congruence].
  rewrite orb_true_r in Ha. discriminate.
Qed.

Lemma dict_set_new (k : pystr) (v : pyval) (acc : list (pystr * pyval)) :
  existsb (pystr_eqb k) (map fst acc) = false -> dict_set k v acc = acc ++ [(k, v)].
Proof.
  induction acc as [|[k' v'] acc IH]; simpl; intros H; [reflexivity|].
  apply orb_false_elim in H as [H1 H2]. rewrite H1, IH by exact H2. reflexivity.
Qed.

Lemma skip_ws_space (x : pystr) : Json.skip_ws (32 :: x) = Json.skip_ws x.
Proof. reflexivity. Qed.

Lemma skip_ws_comma (w : pystr) : Json.skip_ws (lit ", " ++ w) = 44 :: 32 :: w.
Proof. reflexivity. Qed.

Lemma skip_ws_colon (w : pystr) : Json.skip_ws (58 :: 32 :: w) = 58 :: 32 :: w.
Proof. reflexivity. Qed.

Section Roundtrip.

Variable num_text : pystr -> pystr.

Lemma dumps_head (v : pyval) :
  no_numbers v = true ->
  exists c t, dumps num_text v = c :: t /\ In c [110; 116; 102; 34; 91; 123].
Proof.
  destruct v as [|[]| | | |]; simpl; intros H; try discriminate;
    eexists; eexists; split; try reflexivity; simpl; tauto.
Qed.

Lemma skip_ws_dumps (v : pyval) (r : pystr) :
  no_numbers v = true -> Json.skip_ws (dumps num_text v ++ r) = dumps num_text v ++ r.
Proof.
  intros H. destruct (dumps_head v H) as [c [t [E Hc]]]. rewrite E.
  simpl in Hc. simpl.
  destruct Hc as [<-|[<-|[<-|[<-|[<-|[<-|[]]]]]]]; reflexivity.
Qed.

Lemma scan_elems_dumps (xs acc : list pyval) (n : nat) (rest : pystr) :
  xs <> [] ->
  Forall (fun x => no_numbers x = true -> well_formed_value x = true ->
            forall n rest, (length (dumps num_text x) < n)%nat ->
            Json.scan_value n (dumps num_text x ++ rest) = Some (x, rest)) xs ->
  forallb no_numbers xs = true -> forallb well_formed_value xs = true ->
  (length (join (lit ", ") (map (dumps num_text) xs)) + 1 < n)%nat ->
  Json.scan_elems n (join (lit ", ") (map (dumps num_text) xs) ++ rbrack :: rest) acc
  = Some (PList (acc ++ xs), rest).
Proof.
  revert acc n. induction xs as [|x xs IH]; intros acc n Hne HP Hnn Hwf Hn; [congruence|].
  inversion HP as [|? ? Px HPs]; subst.
  simpl in Hnn, Hwf. apply andb_prop in Hnn as [Hx Hxs]. apply andb_prop in Hwf as [Wx Wxs].
  destruct n as [|n]; [lia|].
  destruct xs as [|y ys].
  - cbn [map join] in *. cbn [Json.scan_elems].
    rewrite Px by (auto; lia). reflexivity.
  - assert (HJ : exists T, join (lit ", ") (map (dumps num_text) (y :: ys)) = dumps num_text y ++ T)
      by (destruct ys; [exists []; rewrite app_nil_r; reflexivity | eexists; reflexivity]).
    destruct HJ as [T HT].
    change (join (lit ", ") (map (dumps num_text) (x :: y :: ys)))
      with (dumps num_text x ++ lit ", " ++ join (lit ", ") (map (dumps num_text) (y :: ys))).
    assert (Hn' : (length (join (lit ", ") (map (dumps num_text) (y :: ys))) + 1 < n
                   /\ length (dumps num_text x) < n)%nat).
    { change (join (lit ", ") (map (dumps num_text) (x :: y :: ys)))
        with (dumps num_text x ++ lit ", " ++ join (lit ", ") (map (dumps num_text) (y :: ys))) in Hn.
      rewrite !length_app in Hn. change (length (lit ", ")) with 2%nat in Hn. lia. }
    rewrite <- !app_assoc. cbn [Json.scan_elems].
    rewrite Px by (auto; lia).
    rewrite skip_ws_comma. cbv beta iota.
    replace (44 =? 93) with false by reflexivity. replace (44 =? 44) with true by reflexivity.
    rewrite skip_ws_space, HT, <- app_assoc, skip_ws_dumps, app_assoc, <- HT
      by (simpl in Hxs; apply andb_prop in Hxs; tauto).
    rewrite IH; [rewrite <- app_assoc; reflexivity | congruence | exact HPs | exact Hxs
                | exact Wxs | tauto].
Qed.


Lemma entry_app (k : pystr) (v : pyval) (tail : pystr) :
  (encode_string k ++ lit ": " ++ dumps num_text v) ++ tail
  = qt :: flat_map escape_char k ++ qt :: 58 :: 32 :: dumps num_text v ++ tail.
Proof. unfold encode_string. simpl. rewrite <- !app_assoc. reflexivity. Qed.

Lemma scan_members_dumps (kvs acc : list (pystr * pyval)) (n : nat) (rest : pystr) :
  kvs <> [] ->
  Forall (fun kv => no_numbers (snd kv) = true -> well_formed_value (snd kv) = true ->
            forall n rest, (length (dumps num_text (snd kv)) < n)%nat ->
            Json.scan_value n (dumps num_text (snd kv) ++ rest) = Some (snd kv, rest)) kvs ->
  forallb (fun kv => no_numbers (snd kv)) kvs = true ->
  forallb (fun kv => forallb (Z.leb 0) (fst kv) && well_formed_value (snd kv)) kvs = true ->
  nodupb (map fst (acc ++ kvs)) = true ->
  (length (join (lit ", ")
             (map (fun kv => encode_string (fst kv) ++ lit ": " ++ dumps num_text (snd kv)) kvs))
   + 1 < n)%nat ->
  Json.scan_members n
    (join (lit ", ")
       (map (fun kv => encode_string (fst kv) ++ lit ": " ++ dumps num_text (snd kv)) kvs)
     ++ rbrace :: rest) acc
  = Some (PDict (acc ++ kvs), rest).
Proof.
  set (ent := fun kv : pystr * pyval => encode_string (fst kv) ++ lit ": " ++ dumps num_text (snd kv)).
  revert acc n. induction kvs as [|[k v] kvs IH]; intros acc n Hne HP Hnn Hwf Hnd Hn; [congruence|].
  inversion HP as [|? ? Pv HPs]; subst. simpl in Pv.
  simpl in Hnn, Hwf. apply andb_prop in Hnn as [Hv Hkvs].
  apply andb_prop in Hwf as [Wkv Wkvs]. apply andb_prop in Wkv as [Wk Wv].
  assert (Hnew : existsb (pystr_eqb k) (map fst acc) = false).
  { rewrite map_app in Hnd. exact (nodupb_app_cons _ _ _ Hnd). }
  destruct n as [|n]; [lia|].
  assert (Hlen : forall tail, lt (length (flat_map escape_char k))
                   (length (flat_map escape_char k ++ qt :: 58 :: 32 :: dumps num_text v ++ tail)))
    by (intros; rewrite length_app; simpl; lia).
  destruct kvs as [|kv' kvs'].
  - cbn [map join] in *. unfold ent in *. cbn [fst snd] in *.
    rewrite entry_app. cbn [Json.scan_members].
    replace (qt =? 34) with true by reflexivity.
    rewrite scan_string_encoded by (exact Wk || apply Hlen).
    rewrite skip_ws_colon. cbv beta iota. replace (58 =? 58) with true by reflexivity.
    rewrite skip_ws_space, skip_ws_dumps, Pv by (auto; rewrite length_app in Hn;
      unfold encode_string in Hn; simpl in Hn; rewrite ?length_app in Hn; simpl in Hn; lia).
    replace (Json.skip_ws (rbrace :: rest)) with (rbrace :: rest) by reflexivity.
    cbv beta iota. replace (rbrace =? 125) with true by reflexivity.
    rewrite dict_set_new by exact Hnew. reflexivity.
  - assert (HJ : exists T, join (lit ", ") (map ent (kv' :: kvs')) = ent kv' ++ T)
      by (destruct kvs'; [exists []; rewrite app_nil_r; reflexivity | eexists; reflexivity]).
    destruct HJ as [T HT].
    change (join (lit ", ") (map ent ((k, v) :: kv' :: kvs')))
      with (ent (k, v) ++ lit ", " ++ join (lit ", ") (map ent (kv' :: kvs'))) in *.
    assert (Hn' : (length (join (lit ", ") (map ent (kv' :: kvs'))) + 1 < n
                   /\ length (dumps num_text v) < n)%nat).
    { assert (Lent : (length (dumps num_text v) + 4 <= length (ent (k, v)))%nat)
        by (unfold ent, encode_string; cbn [fst snd]; rewrite !length_app; simpl;
            rewrite ?length_app; simpl; lia).
      rewrite !length_app in Hn. change (length (lit ", ")) with 2%nat in Hn. lia. }
    rewrite <- !app_assoc. unfold ent at 1. cbn [fst snd].
    rewrite entry_app. cbn [Json.scan_members].
    replace (qt =? 34) with true by reflexivity.
    rewrite scan_string_encoded by (exact Wk || apply Hlen).
    rewrite skip_ws_colon. cbv beta iota. replace (58 =? 58) with true by reflexivity.
    rewrite skip_ws_space, skip_ws_dumps, Pv by (auto; lia).
    rewrite skip_ws_comma. cbv beta iota.
    replace (44 =? 125) with false by reflexivity. replace (44 =? 44) with true by reflexivity.
    rewrite skip_ws_space, HT, <- app_assoc.
    replace (Json.skip_ws (ent kv' ++ T ++ rbrace :: rest)) with (ent kv' ++ T ++ rbrace :: rest)
      by (unfold ent, encode_string; reflexivity).
    rewrite app_assoc, <- HT, dict_set_new by exact Hnew.
    rewrite IH; [rewrite <- app_assoc; reflexivity | congruence | exact HPs | exact Hkvs
                | exact Wkvs | rewrite <- app_assoc; exact Hnd | tauto].
Qed.

Lemma scan_value_dumps (v : pyval) :
  no_numbers v = true -> well_formed_value v = true ->
  forall n rest, (length (dumps num_text v) < n)%nat ->
  Json.scan_value n (dumps num_text v ++ rest) = Some (v, rest).
Proof.
  induction v as [| b | l | s | xs IH | kvs IH] using pyval_rect';
    intros Hnn Hwf n rest Hn; destruct n as [|n]; try (simpl in Hn; lia).
  - reflexivity.
  - destruct b; reflexivity.
  - discriminate.
  - simpl dumps in *. unfold encode_string in *.
    replace ((qt :: flat_map escape_char s ++ [qt]) ++ rest)
      with (qt :: flat_map escape_char s ++ qt :: rest) by (simpl; rewrite <- app_assoc; reflexivity).
    cbn [Json.scan_value]. replace (qt =? 34) with true by reflexivity.
    rewrite scan_string_encoded; [reflexivity | exact Hwf | rewrite length_app; simpl; lia].
  - destruct xs as [|x xs']; [reflexivity|].
    set (J := join (lit ", ") (map (dumps num_text) (x :: xs'))).
    change (dumps num_text (PList (x :: xs'))) with (lbrack :: J ++ [rbrack]) in *.
    replace ((lbrack :: J ++ [rbrack]) ++ rest) with (lbrack :: J ++ rbrack :: rest)
      by (simpl; rewrite <- app_assoc; reflexivity).
    simpl in Hnn, Hwf.
    assert (Hx : no_numbers x = true) by (apply andb_prop in Hnn; tauto).
    assert (HJ : exists T, J = dumps num_text x ++ T)
      by (unfold J; destruct xs'; [exists []; rewrite app_nil_r; reflexivity | eexists; reflexivity]).
    destruct HJ as [T HT].
    destruct (dumps_head x Hx) as [c [t [Ec Hc]]].
    cbn [Json.scan_value].
    replace (lbrack =? 34) with false by reflexivity.
    replace (lbrack =? 123) with false by reflexivity.
    replace (lbrack =? 91) with true by reflexivity.
    rewrite HT, <- app_assoc, skip_ws_dumps, Ec by exact Hx. cbn [app].
    replace (c =? 93) with false
      by (simpl in Hc; destruct Hc as [<-|[<-|[<-|[<-|[<-|[<-|[]]]]]]]; reflexivity).
    rewrite app_comm_cons, <- Ec, app_assoc, <- HT.
    apply (scan_elems_dumps (x :: xs') [] n rest); [congruence | exact IH | exact Hnn | exact Hwf|].
    simpl length in Hn. rewrite length_app in Hn. simpl in Hn. fold J. lia.
  - destruct kvs as [|kv kvs']; [reflexivity|].
    set (ent := fun kv : pystr * pyval =>
                  encode_string (fst kv) ++ lit ": " ++ dumps num_text (snd kv)).
    set (J := join (lit ", ") (map ent (kv :: kvs'))).
    change (dumps num_text (PDict (kv :: kvs'))) with (lbrace :: J ++ [rbrace]) in *.
    replace ((lbrace :: J ++ [rbrace]) ++ rest) with (lbrace :: J ++ rbrace :: rest)
      by (simpl; rewrite <- app_assoc; reflexivity).
    simpl in Hnn, Hwf. apply andb_prop in Hwf as [Hnd Hwf].
    assert (HJ : exists T, J = ent kv ++ T)
      by (unfold J; destruct kvs'; [exists []; rewrite app_nil_r; reflexivity | eexists; reflexivity]).
    destruct HJ as [T HT].
    cbn [Json.scan_value].
    replace (lbrace =? 34) with false by reflexivity.
    replace (lbrace =? 123) with true by reflexivity.
    rewrite HT, <- app_assoc.
    replace (Json.skip_ws (ent kv ++ T ++ rbrace :: rest)) with (ent kv ++ T ++ rbrace :: rest)
      by (unfold ent, encode_string; reflexivity).
    replace (ent kv ++ T ++ rbrace :: rest) with (qt :: (flat_map escape_char (fst kv) ++ [qt]
                 ++ lit ": " ++ dumps num_text (snd kv)) ++ T ++ rbrace :: rest)
      by (unfold ent, encode_string; simpl; rewrite <- !app_assoc; reflexivity).
    replace (qt =? 125) with false by reflexivity.
    replace (qt :: (flat_map escape_char (fst kv) ++ [qt] ++ lit ": " ++ dumps num_text (snd kv))
               ++ T ++ rbrace :: rest) with (J ++ rbrace :: rest)
      by (rewrite HT; unfold ent, encode_string; simpl; rewrite <- !app_assoc; reflexivity).
    apply (scan_members_dumps (kv :: kvs') [] n rest); [congruence | exact IH | exact Hnn
                                                     | exact Hwf | exact Hnd |].
    simpl length in Hn. rewrite length_app in Hn. simpl in Hn. fold ent J. lia.
Qed.

(** [json.loads] reads back what [json.dumps] writes, for a value without
    numbers. *)
Lemma json_loads_dumps (v : pyval) :
  no_numbers v = true -> well_formed_value v = true ->
  json_loads (dumps num_text v) = Some v.
Proof.
  intros Hnn Hwf. destruct (dumps_head v Hnn) as [c [t [E Hc]]].
  unfold json_loads.
  replace (is_prefix [65279] (dumps num_text v)) with false
    by (rewrite E; simpl in Hc; destruct Hc as [<-|[<-|[<-|[<-|[<-|[<-|[]]]]]]]; reflexivity).
  rewrite <- (app_nil_r (dumps num_text v)) at 2.
  rewrite skip_ws_dumps, scan_value_dumps by (auto; lia). reflexivity.
Qed.

End Roundtrip.

Lemma hex_val_nonneg (c x : Z) : Json.hex_val c = Some x -> 0 <= x.
Proof.
  unfold Json.hex_val. intros H.
  destruct ((48 <=? c) && (c <=? 57)) eqn:E1;
    [inversion H; subst; apply andb_prop in E1 as [E1 _]; apply Z.leb_le in E1; lia|].
  destruct ((97 <=? c) && (c <=? 102)) eqn:E2;
    [inversion H; subst; apply andb_prop in E2 as [E2 _]; apply Z.leb_le in E2; lia|].
  destruct ((65 <=? c) && (c <=? 70)) eqn:E3;
    [inversion H; subst; apply andb_prop in E3 as [E3 _]; apply Z.leb_le in E3; lia|].
  discriminate.
Qed.

Lemma read_hex4_nonneg (s r : pystr) (v : Z) : Json.read_hex4 s = Some (v, r) -> 0 <= v.
Proof.
  unfold Json.read_hex4. intros H.
  destruct s as [|a [|b [|c [|d r']]]]; try discriminate.
  destruct (Json.hex_val a) eqn:Ea; try discriminate.
  destruct (Json.hex_val b) eqn:Eb; try discriminate.
  destruct (Json.hex_val c) eqn:Ec; try discriminate.
  destruct (Json.hex_val d) eqn:Ed; try discriminate.
  inversion H; subst.
  apply hex_val_nonneg in Ea, Eb, Ec, Ed. nia.
Qed.

Lemma simple_escape_nonneg (e x : Z) : Json.simple_escape e = Some x -> 0 <= x.
Proof.
  unfold Json.simple_escape. intros H.
  repeat match type of H with context [if ?b then _ else _] => destruct b end;
    inversion H; lia.
Qed.

Lemma surrogate_nonneg (v v2 : Z) :
  55296 <= v -> 56320 <= v2 -> 0 <= 65536 + (v - 55296) * 1024 + (v2 - 56320).
Proof. lia. Qed.

Ltac split_match H :=
  repeat match type of H with
         | context [match ?x with _ => _ end] =>
             let E := fresh "E" in destruct x eqn:E
         end.

(** Every code point [json.loads] puts in a string is non-negative. *)
Lemma scan_string_nonneg (n : nat) (s t r : pystr) :
  Json.scan_string n s = Some (t, r) -> forallb (Z.leb 0) t = true.
Proof.
  revert s t r. induction n as [|n IH]; intros s t r H; [discriminate|].
  cbn [Json.scan_string] in H. split_match H; try discriminate;
    inversion H; subst; try reflexivity;
    simpl; apply andb_true_intro; split;
    try (eapply IH; eassumption);
    apply Z.leb_le.
  all: try match goal with E : (?c <? 32) = false |- 0 <= ?c => apply Z.ltb_ge in E; lia end.
  all: try (eapply simple_escape_nonneg; eassumption).
  all: try (eapply read_hex4_nonneg; eassumption).
  all: match goal with
       | E : _ = (?z, _) |- 0 <= ?z =>
           split_match E; injection E as Ez _; rewrite <- Ez;
           repeat match goal with
                  | Hb : (_ && _) = true |- _ => apply andb_prop in Hb as [? ?]
                  | Hl : (_ <=? _) = true |- _ => apply Z.leb_le in Hl
                  end;
           first [ eapply read_hex4_nonneg; eassumption
                 | eapply surrogate_nonneg; eassumption ]
       end.
Qed.

Lemma dict_set_keys (k : pystr) (v : pyval) (acc : list (pystr * pyval)) :
  map fst (dict_set k v acc)
  = if existsb (pystr_eqb k) (map fst acc) then map fst acc else map fst acc ++ [k].
Proof.
  induction acc as [|[k' v'] acc IH]; simpl; [reflexivity|].
  destruct (pystr_eqb k k') eqn:E; simpl; [reflexivity|].
  rewrite IH. destruct (existsb (pystr_eqb k) (map fst acc)); reflexivity.
Qed.

Lemma pystr_eqb_sym (a b : pystr) : pystr_eqb a b = pystr_eqb b a.
Proof.
  destruct (pystr_eqb a b) eqn:E, (pystr_eqb b a) eqn:F; try reflexivity.
  - apply pystr_eqb_true in E. subst. rewrite (proj2 (pystr_eqb_true b b) eq_refl) in F.
    discriminate.
  - apply pystr_eqb_true in F. subst. rewrite (proj2 (pystr_eqb_true a a) eq_refl) in E.
    discriminate.
Qed.

Lemma nodupb_snoc (l : list pystr) (k : pystr) :
  nodupb l = true -> existsb (pystr_eqb k) l = false -> nodupb (l ++ [k]) = true.
Proof.
  induction l as [|a l IH]; simpl; intros H Hk; [reflexivity|].
  apply andb_prop in H as [Ha H]. apply orb_false_elim in Hk as [Hka Hk].
  rewrite IH by assumption. rewrite existsb_app. simpl.
  rewrite pystr_eqb_sym, Hka. apply negb_true_iff in Ha. rewrite Ha. reflexivity.
Qed.

Lemma dict_set_entries (k : pystr) (v : pyval) (acc : list (pystr * pyval)) :
  forallb (fun kv => forallb (Z.leb 0) (fst kv) && well_formed_value (snd kv)) acc = true ->
  forallb (Z.leb 0) k = true -> well_formed_value v = true ->
  forallb (fun kv => forallb (Z.leb 0) (fst kv) && well_formed_value (snd kv))
    (dict_set k v acc) = true.
Proof.
  intros Hacc Hk Hv. induction acc as [|[k' v'] acc IH]; simpl in *.
  - rewrite Hk, Hv. reflexivity.
  - apply andb_prop in Hacc as [H1 H2]. apply andb_prop in H1 as [H1 H3].
    destruct (pystr_eqb k k'); simpl.
    + rewrite H1, Hv, H2. reflexivity.
    + rewrite H1, H3, IH by exact H2. reflexivity.
Qed.

Lemma well_formed_dict_set (k : pystr) (v : pyval) (acc : list (pystr * pyval)) :
  well_formed_value (PDict acc) = true -> forallb (Z.leb 0) k = true ->
  well_formed_value v = true -> well_formed_value (PDict (dict_set k v acc)) = true.
Proof.
  simpl. intros H Hk Hv. apply andb_prop in H as [Hnd Hacc].
  rewrite dict_set_entries by assumption. rewrite dict_set_keys.
  destruct (existsb (pystr_eqb k) (map fst acc)) eqn:E.
  - rewrite Hnd. reflexivity.
  - rewrite nodupb_snoc by assumption. reflexivity.
Qed.

(** What [json.loads] builds has non-negative code points and dicts with
    distinct keys. *)
Lemma scan_well_formed (n : nat) :
  (forall s v r, Json.scan_value n s = Some (v, r) -> well_formed_value v = true) /\
  (forall s acc v r, well_formed_value (PDict acc) = true ->
     Json.scan_members n s acc = Some (v, r) -> well_formed_value v = true) /\
  (forall s acc v r, forallb well_formed_value acc = true ->
     Json.scan_elems n s acc = Some (v, r) -> well_formed_value v = true).
Proof.
  induction n as [|n [IHv [IHm IHe]]].
  { repeat split; intros; discriminate. }
  split; [|split].
  - intros s v r H. cbn [Json.scan_value] in H. split_match H; try discriminate;
      try (eapply IHm; [| exact H]; reflexivity);
      try (eapply IHe; [| exact H]; reflexivity);
      injection H; intros; subst; simpl; try reflexivity.
    eapply scan_string_nonneg; eassumption.
  - intros s acc v r Hacc H. cbn [Json.scan_members] in H. split_match H; try discriminate;
      [injection H; intros; subst | eapply IHm; [| exact H]];
      (apply well_formed_dict_set; [exact Hacc | eapply scan_string_nonneg; eassumption
                                   | eapply IHv; eassumption]).
  - intros s acc v r Hacc H. cbn [Json.scan_elems] in H. split_match H; try discriminate;
      [injection H; intros; subst; simpl | eapply IHe; [| exact H]];
      rewrite forallb_app, Hacc; simpl; rewrite (IHv _ _ _ E); reflexivity.
Qed.

Lemma json_loads_well_formed (s : pystr) (v : pyval) :
  json_loads s = Some v -> well_formed_value v = true.
Proof.
  unfold json_loads. intros H. split_match H; try discriminate.
  injection H; intros; subst. eapply (proj1 (scan_well_formed _)). eassumption.
Qed.

Lemma lstrip_by_suffix (p : Z -> bool) (s : pystr) : exists pre, s = pre ++ lstrip_by p s.
Proof.
  induction s as [|c s IH]; simpl; [exists []; reflexivity|].
  destruct (p c); [destruct IH as [pre E]; exists (c :: pre); simpl; congruence|].
  exists []; reflexivity.
Qed.

Lemma lstrip_by_head (p : Z -> bool) (s : pystr) :
  match lstrip_by p s with c :: _ => p c = false | [] => True end.
Proof.
  induction s as [|c s IH]; simpl; [exact I|]. destruct (p c) eqn:E; [exact IH | exact E].
Qed.

Lemma lstrip_by_fixed (p : Z -> bool) (s : pystr) :
  match s with c :: _ => p c = false | [] => True end -> lstrip_by p s = s.
Proof. destruct s as [|c s]; simpl; [reflexivity|]. intros H. rewrite H. reflexivity. Qed.

(** [s.strip().strip() == s.strip()] *)
Lemma strip_by_idem (p : Z -> bool) (s : pystr) : strip_by p (strip_by p s) = strip_by p s.
Proof.
  unfold strip_by.
  set (a := lstrip_by p s). set (b := lstrip_by p (rev a)).
  destruct (lstrip_by_suffix p (rev a)) as [pre Epre]. fold b in Epre.
  assert (Ea : a = rev b ++ rev pre) by (rewrite <- rev_app_distr, <- Epre, rev_involutive; reflexivity).
  assert (Hr : lstrip_by p (rev b) = rev b).
  { apply lstrip_by_fixed. pose proof (lstrip_by_head p s) as Hh. fold a in Hh.
    destruct (rev b) as [|c r]; [exact I|]. rewrite Ea in Hh. exact Hh. }
  rewrite Hr, rev_involutive. f_equal. apply lstrip_by_fixed. apply lstrip_by_head.
Qed.

Lemma py_strip_idem (s : pystr) : py_strip (py_strip s) = py_strip s.
Proof. apply strip_by_idem. Qed.

(** What [strip] keeps comes from its argument. *)
Lemma strip_by_forallb (p : Z -> bool) (f : Z -> bool) (s : pystr) :
  forallb f s = true -> forallb f (strip_by p s) = true.
Proof.
  intros H. unfold strip_by.
  destruct (lstrip_by_suffix p s) as [pre1 E1].
  destruct (lstrip_by_suffix p (rev (lstrip_by p s))) as [pre2 E2].
  rewrite forallb_forall in *. intros x Hx. apply H.
  apply in_rev in Hx. rewrite E1. apply in_or_app. right.
  apply in_rev. rewrite E2. apply in_or_app. right. exact Hx.
Qed.

Lemma get_stripped_item_word (g : grammar_item) :
  get_stripped (item_to_dict g) (lit "word") = Some (py_strip (g_word g)).
Proof. reflexivity. Qed.

Lemma get_stripped_item_explanation (g : grammar_item) :
  get_stripped (item_to_dict g) (lit "explanation") = Some (py_strip (g_explanation g)).
Proof. reflexivity. Qed.

Lemma get_stripped_item_function (g : grammar_item) :
  get_stripped (item_to_dict g) (lit "function") = Some (py_strip (g_function g)).
Proof. reflexivity. Qed.

(** [_build_grammar_text] never raises on the entries the module builds
    itself. *)
Lemma build_grammar_text_items (items : list grammar_item) :
  exists txt, _build_grammar_text (PList (map item_to_dict items)) = Some txt.
Proof.
  assert (H : exists ls, grammar_lines (map item_to_dict items) = Some ls).
  { induction items as [|g items [ls IH]]; [exists []; reflexivity|].
    cbn [map grammar_lines].
    rewrite get_stripped_item_word, get_stripped_item_explanation, get_stripped_item_function, IH.
    destruct (negb _); eexists; reflexivity. }
  destruct H as [ls H]. exists (join [newline] ls). unfold _build_grammar_text. simpl.
  rewrite H. reflexivity.
Qed.

Lemma get_stripped_some (v : pyval) (k : pystr) :
  (exists s, get_stripped v k = Some s) <->
  match v with
  | PDict kvs => match dict_get kvs k with None | Some (PStr _) => true | Some _ => false end
  | _ => false
  end = true.
Proof.
  unfold get_stripped, dict_get_or.
  destruct v as [| | | s0 | xs | kvs].
  6: { destruct (dict_get kvs k) as [[]|]; split; intros H; try reflexivity;
         try discriminate; try (eexists; reflexivity); destruct H as [t Ht]; discriminate. }
  all: split; intros H; [destruct H as [t Ht] |]; discriminate.
Qed.

Lemma lstrip_by_app_stop (p : Z -> bool) (pre m : pystr) (c : Z) :
  p c = false -> lstrip_by p (pre ++ c :: m) = lstrip_by p pre ++ c :: m.
Proof.
  intros Hc. induction pre as [|a pre IH]; simpl; [rewrite Hc; reflexivity|].
  destruct (p a); [exact IH | reflexivity].
Qed.

Lemma forallb_lstrip (p f : Z -> bool) (s : pystr) :
  forallb f s = true -> forallb f (lstrip_by p s) = true.
Proof.
  intros H. destruct (lstrip_by_suffix p s) as [pre E].
  rewrite E, forallb_app in H. apply andb_prop in H. tauto.
Qed.

(** Stripping a text around an object only strips what surrounds it. *)
Lemma py_strip_around_object (pre body post : pystr) :
  py_strip (pre ++ (lbrace :: body ++ [rbrace]) ++ post)
  = lstrip_by py_isspace pre ++ (lbrace :: body ++ [rbrace])
    ++ rev (lstrip_by py_isspace (rev post)).
Proof.
  unfold py_strip, strip_by.
  change (pre ++ (lbrace :: body ++ [rbrace]) ++ post)
    with (pre ++ lbrace :: (body ++ [rbrace]) ++ post).
  rewrite lstrip_by_app_stop by reflexivity.
  replace (rev (lstrip_by py_isspace pre ++ lbrace :: (body ++ [rbrace]) ++ post))
    with (rev post ++ rbrace :: rev (lstrip_by py_isspace pre ++ lbrace :: body))
    by (rewrite !rev_app_distr; simpl; rewrite !rev_app_distr; simpl;
        rewrite <- !app_assoc; reflexivity).
  rewrite lstrip_by_app_stop by reflexivity.
  rewrite rev_app_distr. simpl. rewrite rev_involutive, <- !app_assoc. reflexivity.
Qed.

Lemma grammar_item_shaped_iff (x : pyval) :
  grammar_item_shaped x = true <->
  (exists w, get_stripped x (lit "word") = Some w) /\
  (exists e, get_stripped x (lit "explanation") = Some e) /\
  (exists f, get_stripped x (lit "function") = Some f).
Proof.
  rewrite !get_stripped_some. unfold grammar_item_shaped.
  destruct x as [| | | | | kvs]; simpl; try (split; [discriminate | intros [H _]; exact H]).
  rewrite ?andb_true_r, !andb_true_iff. tauto.
Qed.

Lemma grammar_lines_none (xs : list pyval) :
  grammar_lines xs = None <-> existsb (fun v => negb (grammar_item_shaped v)) xs = true.
Proof.
  induction xs as [|x xs IH]; simpl; [split; discriminate|].
  pose proof (grammar_item_shaped_iff x) as Hs.
  destruct (get_stripped x (lit "word")) as [w|] eqn:Ew,
           (get_stripped x (lit "explanation")) as [e|] eqn:Ee,
           (get_stripped x (lit "function")) as [f|] eqn:Ef.
  1: { assert (Hx : grammar_item_shaped x = true) by (apply Hs; repeat split; eexists; reflexivity).
       rewrite Hx. simpl. rewrite <- IH.
       destruct (negb _); [reflexivity|].
       destruct (grammar_lines xs); split; congruence. }
  all: assert (Hx : grammar_item_shaped x = false)
         by (destruct (grammar_item_shaped x); [|reflexivity];
             destruct (proj1 Hs eq_refl) as [[? H1] [[? H2] [? H3]]]; congruence).
  all: rewrite Hx; simpl; split; reflexivity.
Qed.

Lemma forallb_rev_iff {A : Type} (f : A -> bool) (l : list A) :
  forallb f (rev l) = forallb f l.
Proof.
  induction l as [|a l IH]; simpl; [reflexivity|].
  rewrite forallb_app, IH. simpl. rewrite andb_true_r, andb_comm. reflexivity.
Qed.

Lemma dict_get_or_pred (f : pyval -> bool) (kvs : list (pystr * pyval)) (k : pystr) (d : pyval) :
  forallb (fun kv => f (snd kv)) kvs = true -> f d = true -> f (dict_get_or kvs k d) = true.
Proof.
  intros H Hd. unfold dict_get_or.
  induction kvs as [|[k' v'] kvs IH]; simpl in *; [exact Hd|].
  apply andb_prop in H as [H1 H2]. destruct (pystr_eqb k k'); [exact H1 | apply IH, H2].
Qed.

Lemma well_formed_values (kvs : list (pystr * pyval)) :
  well_formed_value (PDict kvs) = true ->
  forallb (fun kv => well_formed_value (snd kv)) kvs = true.
Proof.
  simpl. intros H. apply andb_prop in H as [_ H].
  rewrite forallb_forall in *. intros kv Hin. specialize (H kv Hin).
  apply andb_prop in H. tauto.
Qed.

Lemma extract_json_block_stage1 (s : pystr) : _extract_json_block s = stage1_text s.
Proof. reflexivity. Qed.


Lemma take_until_no_char (c : Z) (s g r : pystr) :
  take_until c s = Some (g, r) -> forallb (fun x => negb (x =? c)) g = true.
Proof.
  revert g r. induction s as [|x s IH]; intros g r Et; simpl in Et; [discriminate|].
  destruct (x =? c) eqn:Ex; [injection Et as <- <-; reflexivity|].
  destruct (take_until c s) as [[g2 r2]|]; [|discriminate].
  injection Et as <- <-. simpl. rewrite Ex, (IH g2 r2 eq_refl). reflexivity.
Qed.

Section ExtraLemmas.

Variable py_str : pyval -> pystr.
Variable json_dumps : pyval -> option pystr.

Lemma normalize_entries_stripped (xs : list pyval) :
  Forall (fun g => Forall (fun s => py_strip s = s)
                     [g_word g; g_explanation g; g_function g; g_additional_info g;
                      g_examples g; g_difficulty g])
         (normalize_entries py_str xs).
Proof.
  induction xs as [|x xs IH]; simpl; [constructor|].
  destruct x; try exact IH. constructor; [|exact IH].
  repeat constructor; apply py_strip_idem.
Qed.

(** The entries [_normalize_grammar_items] returns: six-key dicts of
    stripped strings, with a non-empty word or explanation. *)
Lemma normalize_grammar_items_shape (v : pyval) :
  exists items,
    _normalize_grammar_items py_str v = PList (map item_to_dict items) /\
    Forall (fun g => keep_item g = true /\
                     Forall (fun s => py_strip s = s)
                       [g_word g; g_explanation g; g_function g; g_additional_info g;
                        g_examples g; g_difficulty g]) items.
Proof.
  destruct v; try (exists []; split; [reflexivity | constructor]).
  exists (filter keep_item (normalize_entries py_str xs)). split; [reflexivity|].
  pose proof (normalize_entries_stripped xs) as H.
  rewrite Forall_forall in *. intros g Hg. apply filter_In in Hg as [Hin Hk].
  split; [exact Hk | apply H, Hin].
Qed.

Lemma regex_items_shape (objs : list pystr) :
  Forall (fun g => keep_item g = true /\
                   Forall (fun s => py_strip s = s)
                     [g_word g; g_explanation g; g_function g; g_additional_info g;
                      g_examples g; g_difficulty g])
    (filter keep_item (map regex_item objs)).
Proof.
  rewrite Forall_forall. intros g Hg. apply filter_In in Hg as [Hin Hk].
  split; [exact Hk|]. apply in_map_iff in Hin as [obj [<- _]].
  unfold regex_item, regex_field; simpl.
  repeat constructor; match goal with |- py_strip ?t = ?t => destruct (search_field _ obj) end;
    (apply py_strip_idem || reflexivity).
Qed.

(** [json.dumps] of a dict without numbers, as a payload, is normalised as
    the dict itself. *)
Lemma parse_dumped_dict (num_text : pystr -> pystr) (d : list (pystr * pyval)) :
  no_numbers (PDict d) = true -> well_formed_value (PDict d) = true ->
  parse_and_validate_translation py_str json_dumps (PStr (dumps num_text (PDict d)))
  = parse_and_validate_translation py_str json_dumps (PDict d).
Proof.
  intros Hnn Hwf. unfold parse_and_validate_translation, try_block.
  replace (stage1_text (dumps num_text (PDict d))) with (dumps num_text (PDict d))
    by (symmetry; apply stage1_text_object).
  rewrite json_loads_dumps by assumption. reflexivity.
Qed.

Lemma search_field_no_quote (key s g : pystr) :
  search_field key s = Some g -> forallb (fun c => negb (c =? qt)) g = true.
Proof.
  assert (Hat : forall u, field_at key u = Some g -> forallb (fun c => negb (c =? qt)) g = true).
  { intros u H. unfold field_at in H. split_match H; try discriminate.
    match type of H with option_map fst (take_until qt ?r) = _ =>
      destruct (take_until qt r) as [[g' r']|] eqn:Et; try discriminate end.
    simpl in H. injection H as <-. exact (take_until_no_char _ _ _ _ Et). }
  induction s as [|c s IH]; simpl; intros H; [exact (Hat _ H)|].
  destruct (field_at key (c :: s)) eqn:E; [injection H as <-; exact (Hat _ E) | exact (IH H)].
Qed.

End ExtraLemmas.

Section Extras.

Variable py_str : pyval -> pystr.
Variable json_dumps : pyval -> option pystr.

(** X1: [translate_text_with_explanation] replaces a reply whose JSON object
    parses to a dict by [json.dumps] of its three fields; when that object
    holds no number, [parse_and_validate_translation] gives the same result
    on the rewritten reply as on the reply itself. *)
Theorem X1_reserialised_reply_normalises_alike (num_text : pystr -> pystr) (result : pystr) :
  (forall v, json_loads (_extract_json_block result) = Some v -> no_numbers v = true) ->
  parse_and_validate_translation py_str json_dumps (PStr (normalize_response num_text result))
  = parse_and_validate_translation py_str json_dumps (PStr result).
Proof.
  intros Hnn. unfold normalize_response. rewrite extract_json_block_stage1 in *.
  destruct (json_loads (stage1_text result)) as [v|] eqn:E; [|reflexivity].
  destruct v as [| | | | |kvs]; try reflexivity.
  specialize (Hnn _ eq_refl). pose proof (json_loads_well_formed _ _ E) as Hwf.
  apply well_formed_values in Hwf.
  set (D := [(lit "original", dict_get_or kvs (lit "original") (PStr []));
             (lit "translation", dict_get_or kvs (lit "translation") (PStr []));
             (lit "grammar", dict_get_or kvs (lit "grammar") (PList []))]).
  assert (HD : json_loads (dumps num_text (PDict D)) = Some (PDict D)).
  { apply json_loads_dumps.
    - simpl. rewrite !(dict_get_or_pred no_numbers) by (exact Hnn || reflexivity).
      reflexivity.
    - simpl. rewrite !(dict_get_or_pred well_formed_value) by (exact Hwf || reflexivity).
      reflexivity. }
  unfold parse_and_validate_translation, try_block.
  replace (stage1_text (dumps num_text (PDict D))) with (dumps num_text (PDict D))
    by (symmetry; apply stage1_text_object).
  rewrite HD, E. reflexivity.
Qed.

(** X2: a dict without numbers and its [json.dumps] text are normalised
    alike. *)
Theorem X2_dumped_dict_normalises_as_dict (num_text : pystr -> pystr)
  (d : list (pystr * pyval)) :
  no_numbers (PDict d) = true -> well_formed_value (PDict d) = true ->
  parse_and_validate_translation py_str json_dumps (PStr (dumps num_text (PDict d)))
  = parse_and_validate_translation py_str json_dumps (PDict d).
Proof. apply parse_dumped_dict. Qed.

(** X3: on a hit of [word_cache], whatever the OCR text [texto], the reply
    is normalised to [texto] stripped, the cached translation, and the one
    cached grammar entry rendered as [- word: explanation (function)]. *)
Theorem X3_cache_hit_popup (num_text : pystr -> pystr) (texto : pystr) :
  forallb (Z.leb 0) texto = true ->
  Forall (fun e : pystr * pystr * pystr =>
            let '(key, tr, expl) := e in
            exists cached reply,
              dict_get word_cache key = Some cached /\
              cache_hit_reply num_text texto cached = Some reply /\
              parse_and_validate_translation py_str json_dumps (PStr reply)
              = Some {| original := py_strip texto; translation := tr;
                        grammar := lit "- " ++ key ++ lit ": " ++ expl
                                   ++ lit " (" ++ interjeccion ++ lit ")";
                        grammar_json :=
                          PList [item_to_dict {| g_word := key; g_explanation := expl;
                                                 g_function := interjeccion;
                                                 g_additional_info := [];
                                                 g_examples := []; g_difficulty := [] |}] |})
    [(lit "ciao", lit "hola", lit "saludo informal");
     (lit "grazie", lit "gracias", lit "expresi" ++ [243] ++ lit "n de agradecimiento");
     (lit "prego", lit "de nada", lit "respuesta a gracias")].
Proof.
  intros Ht.
  repeat constructor; do 2 eexists; (split; [reflexivity|]); (split; [reflexivity|]);
    (rewrite parse_dumped_dict; [reflexivity | reflexivity |]);
    simpl; rewrite Ht; reflexivity.
Qed.

(** X4: [parse_and_validate_translation] raises only on a string whose
    stage 1 fails, when the grammar array the recovery path finds is parsed
    by [json.loads] (as it is or once repaired) into a value that
    [_build_grammar_text] cannot render. *)
Theorem X4_raises_only_on_recovered_json (payload : pyval) :
  parse_and_validate_translation py_str json_dumps payload = None ->
  exists p gs v,
    payload = PStr p /\
    (forall kvs, json_loads (stage1_text p) <> Some (PDict kvs)) /\
    search_grammar (unfence p) = Some gs /\
    (json_loads gs = Some v \/
     (json_loads gs = None /\ json_loads (repair_trailing_commas gs) = Some v)) /\
    _build_grammar_text v = None.
Proof.
  unfold parse_and_validate_translation. intros H.
  destruct (try_block py_str payload) as [[[o t] g]|] eqn:Ht.
  - exfalso. unfold try_block in Ht.
    assert (Hg : exists v, g = _normalize_grammar_items py_str v).
    { split_match Ht; try discriminate; injection Ht; intros; subst; eexists; reflexivity. }
    destruct Hg as [v ->].
    destruct (normalize_grammar_items_shape py_str v) as [items [E _]].
    destruct (build_grammar_text_items items) as [txt Etxt].
    rewrite E, Etxt in H. discriminate.
  - destruct payload as [| | | p | |]; try discriminate.
    assert (Hs : forall kvs, json_loads (stage1_text p) <> Some (PDict kvs)).
    { intros kvs E. unfold try_block in Ht. rewrite E in Ht. discriminate. }
    unfold except_block in H.
    destruct (search_grammar (unfence p)) as [gs|] eqn:Eg.
    + destruct (json_loads gs) as [v|] eqn:E1.
      * destruct (_build_grammar_text v) eqn:Eb; [discriminate|].
        exists p, gs, v. repeat split; auto.
      * destruct (json_loads (repair_trailing_commas gs)) as [v|] eqn:E2.
        -- destruct (_build_grammar_text v) eqn:Eb; [discriminate|].
           exists p, gs, v. repeat split; auto.
        -- exfalso.
           destruct (build_grammar_text_items
                       (filter keep_item (map regex_item (find_objects gs)))) as [txt Etxt].
           rewrite Etxt in H. discriminate.
    + exfalso. discriminate.
Qed.

(** X5: when stage 1 yields a dict (a dict payload, or a string whose
    stage-1 text is the JSON of a dict), the call returns, and every entry
    of [grammar_json] is a dict of the six keys holding stripped strings,
    with a non-empty word or explanation. *)
Theorem X5_stage1_entries_normalised (payload : pyval) (kvs : list (pystr * pyval)) :
  (payload = PDict kvs \/
   exists p, payload = PStr p /\ json_loads (stage1_text p) = Some (PDict kvs)) ->
  exists r items,
    parse_and_validate_translation py_str json_dumps payload = Some r /\
    grammar_json r = PList (map item_to_dict items) /\
    Forall (fun g => keep_item g = true /\
                     Forall (fun s => py_strip s = s)
                       [g_word g; g_explanation g; g_function g; g_additional_info g;
                        g_examples g; g_difficulty g]) items.
Proof.
  intros Hp.
  assert (Ht : try_block py_str payload
               = Some (py_strip (_as_string py_str (dict_get_or kvs (lit "original") (PStr []))),
                       py_strip (_as_string py_str (dict_get_or kvs (lit "translation") (PStr []))),
                       _normalize_grammar_items py_str
                         (dict_get_or kvs (lit "grammar") (PList [])))).
  { destruct Hp as [-> | [p [-> E]]]; unfold try_block; [reflexivity | rewrite E; reflexivity]. }
  destruct (normalize_grammar_items_shape py_str (dict_get_or kvs (lit "grammar") (PList [])))
    as [items [Ei Hi]].
  destruct (build_grammar_text_items items) as [txt Etxt].
  unfold parse_and_validate_translation. rewrite Ht, Ei, Etxt.
  eexists; exists items. split; [reflexivity|]. split; [reflexivity | exact Hi].
Qed.

(** X6: when stage 1 fails and the grammar array found by the recovery path
    is not JSON even after the trailing-comma repair, the call returns, and
    the entries read from its objects by the per-field expressions are
    dicts of the six keys holding stripped strings, with a non-empty word or
    explanation. *)
Theorem X6_last_resort_entries_normalised (p gs : pystr) :
  (forall kvs, json_loads (stage1_text p) <> Some (PDict kvs)) ->
  search_grammar (unfence p) = Some gs ->
  json_loads gs = None -> json_loads (repair_trailing_commas gs) = None ->
  exists r items,
    parse_and_validate_translation py_str json_dumps (PStr p) = Some r /\
    grammar_json r = PList (map item_to_dict items) /\
    Forall (fun g => keep_item g = true /\
                     Forall (fun s => py_strip s = s)
                       [g_word g; g_explanation g; g_function g; g_additional_info g;
                        g_examples g; g_difficulty g]) items.
Proof.
  intros Hs Eg E1 E2.
  assert (Ht : try_block py_str (PStr p) = None).
  { unfold try_block. destruct (json_loads (stage1_text p)) as [[]|] eqn:E; try reflexivity.
    exfalso. eapply Hs. reflexivity. }
  set (items := filter keep_item (map regex_item (find_objects gs))).
  destruct (build_grammar_text_items items) as [txt Etxt].
  unfold parse_and_validate_translation. rewrite Ht. unfold except_block.
  rewrite Eg, E1, E2. fold items. rewrite Etxt.
  eexists; exists items. split; [reflexivity|]. split; [reflexivity|].
  apply regex_items_shape.
Qed.

(** X7: whenever the call returns, [original] and [translation] have no
    leading or trailing whitespace. *)
Theorem X7_original_translation_stripped (payload : pyval) (r : normalized) :
  parse_and_validate_translation py_str json_dumps payload = Some r ->
  py_strip (original r) = original r /\ py_strip (translation r) = translation r.
Proof.
  unfold parse_and_validate_translation.
  destruct (try_block py_str payload) as [[[o t] g]|] eqn:Ht.
  - destruct (_build_grammar_text g); intros H; [|discriminate]. injection H as <-. simpl.
    unfold try_block in Ht. split_match Ht; try discriminate;
      injection Ht; intros; subst; split; apply py_strip_idem.
  - unfold except_block.
    destruct (match payload with PStr p => Some p | _ => json_dumps payload end) as [s0|].
    + destruct (search_field (lit "original") (unfence s0)),
               (search_field (lit "translation") (unfence s0));
        match goal with |- match ?b with _ => _ end = _ -> _ => destruct b end;
        intros H; try discriminate; injection H as <-; simpl;
        split; (apply py_strip_idem || reflexivity).
    + destruct (_build_grammar_text (PList [])); intros H; [|discriminate].
      injection H as <-. split; reflexivity.
Qed.

(** X8: when stage 1 fails on a string, the [original] and [translation]
    returned hold no double-quote character. *)
Theorem X8_recovered_fields_have_no_quote (p : pystr) (r : normalized) :
  (forall kvs, json_loads (stage1_text p) <> Some (PDict kvs)) ->
  parse_and_validate_translation py_str json_dumps (PStr p) = Some r ->
  forallb (fun c => negb (c =? qt)) (original r) = true /\
  forallb (fun c => negb (c =? qt)) (translation r) = true.
Proof.
  intros Hs.
  assert (Ht : try_block py_str (PStr p) = None).
  { unfold try_block. destruct (json_loads (stage1_text p)) as [[]|] eqn:E; try reflexivity.
    exfalso. eapply Hs. reflexivity. }
  unfold parse_and_validate_translation. rewrite Ht. unfold except_block.
  destruct (search_field (lit "original") (unfence p)) as [go|] eqn:Eo,
           (search_field (lit "translation") (unfence p)) as [gt|] eqn:Etr;
    match goal with |- match ?b with _ => _ end = _ -> _ => destruct b end;
    intros H; try discriminate; injection H as <-; simpl;
    split; try reflexivity; apply strip_by_forallb; eapply search_field_no_quote; eassumption.
Qed.

(** X9: [_build_grammar_text] on a list raises exactly when one of its
    elements is not a dict, or holds a [word], [explanation] or [function]
    that is not a string. *)
Theorem X9_build_grammar_text_raises_iff_bad_entry (xs : list pyval) :
  _build_grammar_text (PList xs) = None <->
  existsb (fun v => negb (grammar_item_shaped v)) xs = true.
Proof.
  unfold _build_grammar_text. simpl. rewrite <- grammar_lines_none.
  destruct (grammar_lines xs); split; congruence.
Qed.

(** X10: [_extract_json_block] takes a JSON object out of the prose around
    it, when the text before the object holds no opening brace and no
    backtick, and the text after it no closing brace. *)
Theorem X10_extract_object_from_prose (pre body post : pystr) :
  forallb (fun c => negb (c =? lbrace) && negb (c =? backtick)) pre = true ->
  forallb (fun c => negb (c =? rbrace)) post = true ->
  _extract_json_block (pre ++ (lbrace :: body ++ [rbrace]) ++ post)
  = lbrace :: body ++ [rbrace].
Proof.
  intros Hpre Hpost. unfold _extract_json_block.
  rewrite py_strip_around_object.
  set (T := lbrace :: body ++ [rbrace]).
  assert (Hp := forallb_lstrip py_isspace _ pre Hpre).
  set (pre' := lstrip_by py_isspace pre) in *.
  assert (Hq : forallb (fun c => negb (c =? rbrace)) (rev (lstrip_by py_isspace (rev post))) = true)
    by (rewrite forallb_rev_iff; apply forallb_lstrip; rewrite forallb_rev_iff; exact Hpost).
  set (post' := rev (lstrip_by py_isspace (rev post))) in *.
  replace (is_prefix (lit "```") (pre' ++ T ++ post')) with false.
  2: { destruct pre' as [|c r]; [reflexivity|].
       simpl in Hp. apply andb_prop in Hp as [Hc _]. apply andb_prop in Hc as [_ Hc].
       apply negb_true_iff in Hc. cbn [app].
       change (is_prefix (lit "```") (c :: ?X)) with ((96 =? c) && is_prefix (lit "``") X).
       rewrite Z.eqb_sym. change (c =? 96) with (c =? backtick). rewrite Hc. reflexivity. }
  assert (Hno : forallb (fun z => negb (z =? lbrace)) pre' = true).
  { rewrite forallb_forall in *. intros z Hz. specialize (Hp z Hz).
    apply andb_prop in Hp. tauto. }
  rewrite str_find_app_absent by exact Hno.
  replace (str_find lbrace (T ++ post')) with (Some 0%nat)
    by (unfold T; reflexivity).
  simpl option_map. rewrite Nat.add_0_r.
  rewrite app_assoc, str_rfind_app_absent by (apply str_rfind_absent; exact Hq).
  replace (pre' ++ T) with ((pre' ++ lbrace :: body) ++ [rbrace])
    by (unfold T; rewrite <- app_assoc; reflexivity).
  rewrite str_rfind_last.
  replace ((length pre' <? length (pre' ++ lbrace :: body))%nat) with true
    by (symmetry; apply Nat.ltb_lt; rewrite length_app; simpl; lia).
  replace ((pre' ++ lbrace :: body) ++ [rbrace]) with (pre' ++ T)
    by (unfold T; rewrite <- app_assoc; reflexivity).
  unfold slice. rewrite <- app_assoc, skipn_length_app.
  replace (S (length (pre' ++ lbrace :: body)) - length pre')%nat with (length T)
    by (unfold T; rewrite !length_app; cbn [length]; rewrite ?length_app; cbn [length]; lia).
  apply firstn_length_app.
Qed.

End Extras.

(** ** Concrete instances of the extra properties *)

Lemma X1_witness :
  (forall v, json_loads (_extract_json_block prose_payload) = Some v -> no_numbers v = true) /\
  parse_and_validate_translation (fun _ => []) (fun _ => None)
    (PStr (normalize_response (fun _ => []) prose_payload))
  = parse_and_validate_translation (fun _ => []) (fun _ => None) (PStr prose_payload).
Proof.
  assert (H : forall v, json_loads (_extract_json_block prose_payload) = Some v ->
                        no_numbers v = true)
    by (intros v E; vm_compute in E; injection E as <-; reflexivity).
  split; [exact H|].
  exact (X1_reserialised_reply_normalises_alike (fun _ => []) (fun _ => None) (fun _ => [])
           prose_payload H).
Defined.

Lemma X2_witness :
  no_numbers ciao_payload = true /\ well_formed_value ciao_payload = true /\
  parse_and_validate_translation (fun _ => []) (fun _ => None)
    (PStr (dumps (fun _ => []) ciao_payload))
  = parse_and_validate_translation (fun _ => []) (fun _ => None) ciao_payload.
Proof.
  split; [reflexivity|]. split; [reflexivity|]. unfold ciao_payload.
  apply X2_dumped_dict_normalises_as_dict; reflexivity.
Defined.

Lemma X3_witness :
  forallb (Z.leb 0) (lit " ciao ") = true /\
  exists cached reply,
    dict_get word_cache (lit "ciao") = Some cached /\
    cache_hit_reply (fun _ => []) (lit " ciao ") cached = Some reply /\
    parse_and_validate_translation (fun _ => []) (fun _ => None) (PStr reply)
    = Some {| original := lit "ciao"; translation := lit "hola";
              grammar := lit "- ciao: saludo informal (" ++ interjeccion ++ lit ")";
              grammar_json :=
                PList [item_to_dict {| g_word := lit "ciao";
                                       g_explanation := lit "saludo informal";
                                       g_function := interjeccion; g_additional_info := [];
                                       g_examples := []; g_difficulty := [] |}] |}.
Proof.
  split; [reflexivity|].
  pose proof (X3_cache_hit_popup (fun _ => []) (fun _ => None) (fun _ => []) (lit " ciao ")
                eq_refl) as H.
  apply Forall_inv in H. exact H.
Defined.

Lemma X4_witness :
  parse_and_validate_translation (fun _ => []) (fun _ => None) (PStr number_in_array_payload)
    = None /\
  exists p gs v,
    PStr number_in_array_payload = PStr p /\
    (forall kvs, json_loads (stage1_text p) <> Some (PDict kvs)) /\
    search_grammar (unfence p) = Some gs /\
    (json_loads gs = Some v \/
     (json_loads gs = None /\ json_loads (repair_trailing_commas gs) = Some v)) /\
    _build_grammar_text v = None.
Proof.
  assert (H : parse_and_validate_translation (fun _ => []) (fun _ => None)
                (PStr number_in_array_payload) = None) by (vm_compute; reflexivity).
  split; [exact H|].
  exact (X4_raises_only_on_recovered_json (fun _ => []) (fun _ => None) _ H).
Defined.

Lemma X5_witness :
  exists r items,
    parse_and_validate_translation (fun _ => []) (fun _ => None) ciao_payload = Some r /\
    grammar_json r = PList (map item_to_dict items) /\
    Forall (fun g => keep_item g = true /\
                     Forall (fun s => py_strip s = s)
                       [g_word g; g_explanation g; g_function g; g_additional_info g;
                        g_examples g; g_difficulty g]) items.
Proof.
  apply (X5_stage1_entries_normalised (fun _ => []) (fun _ => None) ciao_payload
           [(lit "original", PStr (lit "Ciao"));
            (lit "translation", PStr (lit "Hola"));
            (lit "grammar",
             PList [PDict [(lit "word", PStr (lit "Ciao"));
                           (lit "explanation", PStr (lit "Hola"));
                           (lit "function", PStr interjeccion)]])]).
  left. reflexivity.
Defined.

Lemma X6_witness :
  exists r items,
    parse_and_validate_translation (fun _ => []) (fun _ => None) (PStr missing_comma_payload)
      = Some r /\
    grammar_json r = PList (map item_to_dict items) /\
    Forall (fun g => keep_item g = true /\
                     Forall (fun s => py_strip s = s)
                       [g_word g; g_explanation g; g_function g; g_additional_info g;
                        g_examples g; g_difficulty g]) items.
Proof.
  apply (X6_last_resort_entries_normalised (fun _ => []) (fun _ => None) missing_comma_payload
           (jlit "[{'word': 'Ciao', 'explanation': 'Hola'} {'word': 'a'}]")).
  - intros kvs E. vm_compute in E. discriminate.
  - vm_compute. reflexivity.
  - vm_compute. reflexivity.
  - vm_compute. reflexivity.
Defined.

Lemma X7_witness :
  exists r,
    parse_and_validate_translation (fun _ => []) (fun _ => None) (PStr trailing_comma_payload)
      = Some r /\
    py_strip (original r) = original r /\ py_strip (translation r) = translation r.
Proof.
  eexists. split; [vm_compute; reflexivity|].
  apply (X7_original_translation_stripped (fun _ => []) (fun _ => None)
           (PStr trailing_comma_payload)).
  vm_compute. reflexivity.
Defined.

Lemma X8_witness :
  exists r,
    parse_and_validate_translation (fun _ => []) (fun _ => None) (PStr escaped_quote_payload)
      = Some r /\
    forallb (fun c => negb (c =? qt)) (original r) = true /\
    forallb (fun c => negb (c =? qt)) (translation r) = true.
Proof.
  eexists. split; [vm_compute; reflexivity|].
  apply (X8_recovered_fields_have_no_quote (fun _ => []) (fun _ => None) escaped_quote_payload).
  - intros kvs E. vm_compute in E. discriminate.
  - vm_compute. reflexivity.
Defined.

Lemma X10_witness :
  _extract_json_block (lit "Result: " ++ (lbrace :: fenced_body ++ [rbrace]) ++ lit " End")
  = lbrace :: fenced_body ++ [rbrace].
Proof.
  apply X10_extract_object_from_prose; reflexivity.
Defined.
